(** * moulin: the Yocto builder (moulin/builders/yocto.py)

    A shallow embedding of the configuration flattening and of the
    generation of the ninja build edges of one Yocto build, with the
    properties the specification states about them. *)

From Stdlib Require Import String Ascii List Bool Arith Lia.
Import ListNotations.
Open Scope string_scope.

Set Warnings "-register-all".

(** ** YAML nodes (yaml.nodes) *)

(** A position in the configuration file (yaml.Mark). *)
Record Mark : Type := mkMark { line : nat; column : nat }.

(** The three kinds of node of a composed YAML document.  Each carries its
    [value] and its [start_mark]; the value of a mapping is a list of
    (key node, value node) pairs. *)
Inductive Node : Type :=
| ScalarNode (value : string) (start_mark : Mark)
| SequenceNode (value : list Node) (start_mark : Mark)
| MappingNode (value : list (Node * Node)) (start_mark : Mark).

Definition start_mark (n : Node) : Mark :=
  match n with
  | ScalarNode _ m | SequenceNode _ m | MappingNode _ m => m
  end.

(** [isinstance(n, SequenceNode)] *)
Definition is_SequenceNode (n : Node) : bool :=
  match n with SequenceNode _ _ => true | _ => false end.

(** What the attribute [.value] of a node holds at run time: a string, a
    list of nodes or a list of pairs of nodes. *)
Inductive PyValue : Type :=
| PyStr (s : string)
| PyNodes (l : list Node)
| PyPairs (l : list (Node * Node)).

Definition node_value (n : Node) : PyValue :=
  match n with
  | ScalarNode s _ => PyStr s
  | SequenceNode l _ => PyNodes l
  | MappingNode l _ => PyPairs l
  end.

(** ** Exceptions and results *)

(** [YAMLProcessingError] is the error of moulin.yaml_helpers that
    [_flatten_yocto_conf] raises with a message and a mark;
    [MissingFieldError] is the error of the mandatory accessors, which
    names the missing key; the others are built-in exceptions of Python. *)
Inductive Exception : Type :=
| YAMLProcessingError (message : string) (mark : Mark)
| MissingFieldError (key : string) (mark : Mark)
| IndexError
| AttributeError
| TypeError.

Inductive Result (A : Type) : Type :=
| Ok (a : A)
| Raise (e : Exception).
Arguments Ok {A} a.
Arguments Raise {A} e.

Definition bindR {A B} (r : Result A) (k : A -> Result B) : Result B :=
  match r with
  | Ok a => k a
  | Raise e => Raise e
  end.

Declare Scope result_scope.
Delimit Scope result_scope with result.
Notation "x <- e ;; k" := (bindR e (fun x => k))
  (at level 61, e at next level, right associativity) : result_scope.
Open Scope result_scope.

(** A list comprehension whose element expression may raise: elements are
    evaluated left to right and the first exception ends it. *)
Fixpoint comprehension {A B} (f : A -> Result B) (l : list A) : Result (list B) :=
  match l with
  | [] => Ok []
  | x :: rest =>
      y <- f x ;;
      ys <- comprehension f rest ;;
      Ok (y :: ys)
  end.

(** The list of the values when every one is defined. *)
Fixpoint all_defined {A} (l : list (option A)) : option (list A) :=
  match l with
  | [] => Some []
  | Some x :: rest => option_map (cons x) (all_defined rest)
  | None :: _ => None
  end.

(** [l[i]] on a list. *)
Definition index {A} (l : list A) (i : nat) : Result A :=
  match nth_error l i with
  | Some x => Ok x
  | None => Raise IndexError
  end.

(** ** _flatten_yocto_conf *)

Definition DirectivePair : Type := (PyValue * PyValue)%type.

(** [(x.value[0].value, x.value[1].value)] for a member [x] of a group.
    On a scalar, [x.value[0]] is a one-character string, and on a mapping
    it is a tuple: neither has an attribute [value]. *)
Definition member_pair (x : Node) : Result DirectivePair :=
  match x with
  | SequenceNode v _ =>
      a <- index v 0 ;;
      b <- index v 1 ;;
      Ok (node_value a, node_value b)
  | ScalarNode s _ =>
      match s with
      | EmptyString => Raise IndexError
      | String _ _ => Raise AttributeError
      end
  | MappingNode v _ =>
      match v with
      | [] => Raise IndexError
      | _ :: _ => Raise AttributeError
      end
  end.

Definition expected_array : string := "Exptected array on 'conf' node".

(** The body of the loop: what one entry adds to [result]. *)
Definition flatten_entry (entry : Node) : Result (list DirectivePair) :=
  match entry with
  | SequenceNode v _ =>
      first <- index v 0 ;;
      if is_SequenceNode first
      then comprehension member_pair v
      else
        second <- index v 1 ;;
        Ok [(node_value first, node_value second)]
  | _ => Raise (YAMLProcessingError expected_array (start_mark entry))
  end.

(** [for entry in conf.value: ...] with the accumulator [result]. *)
Fixpoint flatten_loop (entries : list Node) (result : list DirectivePair)
  : Result (list DirectivePair) :=
  match entries with
  | [] => Ok result
  | entry :: rest =>
      r <- flatten_entry entry ;;
      flatten_loop rest (result ++ r)
  end.

(** The argument is a sequence node at the only call site.  On another
    node the loop would run over the characters of a string or over
    tuples, and [entry.start_mark] fails on the first of them. *)
Definition _flatten_yocto_conf (conf : Node) : Result (list DirectivePair) :=
  match conf with
  | SequenceNode v _ => flatten_loop v []
  | ScalarNode EmptyString _ | MappingNode [] _ => Ok []
  | _ => Raise AttributeError
  end.

(** ** Python strings

    A Python [str] is modelled by the bytes of its UTF-8 encoding.  Every
    character the functions below look for is ASCII, and no byte of a
    multi-byte UTF-8 sequence is, so they act on the encoding as Python
    acts on the code points. *)

(** [s.replace(old, new)] for a pattern [old] of one character. *)
Fixpoint replace (old : ascii) (new : string) (s : string) : string :=
  match s with
  | EmptyString => EmptyString
  | String c rest =>
      if Ascii.eqb c old then new ++ replace old new rest
      else String c (replace old new rest)
  end.

(** [sep.join(l)] *)
Definition str_join (sep : string) (l : list string) : string :=
  String.concat sep l.

(** [sep.join([x.value for x in nodes])]: [str.join] refuses an item that
    is not a string. *)
Definition as_str (v : PyValue) : Result string :=
  match v with
  | PyStr s => Ok s
  | _ => Raise TypeError
  end.

Definition startswith (pre s : string) : bool := String.prefix pre s.

Fixpoint endswith_char (c : ascii) (s : string) : bool :=
  match s with
  | EmptyString => false
  | String d EmptyString => Ascii.eqb d c
  | String _ rest => endswith_char c rest
  end.

(** ** os.path (posixpath) *)

Definition sep : string := "/".

(** One round of the loop of [posixpath.join]. *)
Definition join_step (path b : string) : string :=
  if startswith sep b then b
  else if (path =? "") || endswith_char "/" path then path ++ b
  else path ++ sep ++ b.

(** [os.path.join(a, *p)] on strings. *)
Definition os_path_join (a : string) (p : list string) : string :=
  fold_left join_step p a.

(** [os.path.join] applied to an unpacked list of run-time values: at
    least one argument is required and each one has to be a string. *)
Definition os_path_join_values (args : list PyValue) : Result string :=
  strs <- comprehension as_str args ;;
  match strs with
  | [] => Raise TypeError
  | a :: p => Ok (os_path_join a p)
  end.

(** [s.split("/")] *)
Fixpoint split_sep (s : string) : list string :=
  match s with
  | EmptyString => [EmptyString]
  | String c rest =>
      if Ascii.eqb c "/" then EmptyString :: split_sep rest
      else
        match split_sep rest with
        | h :: t => String c h :: t
        | [] => [String c EmptyString]
        end
  end.

(** The loop of [posixpath.normpath] over the components, [new_comps]
    being the list built so far. *)
Fixpoint normpath_loop (initial_slashes : nat) (comps new_comps : list string)
  : list string :=
  match comps with
  | [] => new_comps
  | comp :: rest =>
      if (comp =? "") || (comp =? ".") then
        normpath_loop initial_slashes rest new_comps
      else if negb (comp =? "..")
              || (Nat.eqb initial_slashes 0 && Nat.eqb (length new_comps) 0)
              || (negb (Nat.eqb (length new_comps) 0)
                  && (last new_comps "" =? ".."))
      then normpath_loop initial_slashes rest (new_comps ++ [comp])
      else if negb (Nat.eqb (length new_comps) 0)
      then normpath_loop initial_slashes rest (removelast new_comps)
      else normpath_loop initial_slashes rest new_comps
  end.

Fixpoint repeat_str (s : string) (n : nat) : string :=
  match n with
  | O => EmptyString
  | S k => s ++ repeat_str s k
  end.

(** [os.path.normpath(path)] *)
Definition normpath (path : string) : string :=
  if path =? "" then "."
  else
    let initial_slashes :=
      if startswith sep path then
        if startswith "//" path && negb (startswith "///" path) then 2 else 1
      else 0 in
    let comps := normpath_loop initial_slashes (split_sep path) [] in
    let path := str_join sep comps in
    let path := repeat_str sep initial_slashes ++ path in
    if path =? "" then "." else path.

(** [os.path.abspath(path)], [cwd] being what [os.getcwd()] returns. *)
Definition abspath (cwd path : string) : string :=
  if startswith sep path then normpath path
  else normpath (os_path_join cwd [path]).

(** ** shlex.quote *)

Definition is_word_char (c : ascii) : bool :=
  let n := nat_of_ascii c in
  (Nat.leb 48 n && Nat.leb n 57) || (Nat.leb 65 n && Nat.leb n 90)
  || (Nat.leb 97 n && Nat.leb n 122) || Nat.eqb n 95.

(** A character outside of the class [\w@%+=:,./-] (with [re.ASCII]). *)
Definition is_unsafe (c : ascii) : bool :=
  negb (is_word_char c
        || existsb (Ascii.eqb c) ["@"; "%"; "+"; "="; ":"; ","; "."; "/"; "-"]%char).

Fixpoint find_unsafe (s : string) : bool :=
  match s with
  | EmptyString => false
  | String c rest => is_unsafe c || find_unsafe rest
  end.

(** The double quote character. *)
Definition dquote : ascii := Eval cbv in ascii_of_nat 34.

(** What [shlex.quote] puts in place of a single quote: the five
    characters single, double, single, double, single quote. *)
Definition quoted_squote : string :=
  String "'" (String dquote (String "'" (String dquote (String "'" EmptyString)))).

Definition shlex_quote (s : string) : string :=
  if s =? "" then "''"
  else if negb (find_unsafe s) then s
  else "'" ++ replace "'" quoted_squote s ++ "'".

(** ** The configuration accessors (moulin.yaml_helpers) *)

(** Modelled from the spec: the test [key.value == name] of the accessors
    on the key node of a mapping entry. *)
Definition key_is (name : string) (kv : Node * Node) : bool :=
  match fst kv with
  | ScalarNode s _ => s =? name
  | _ => false
  end.

(** Modelled from the spec: moulin/yaml_helpers.py is not among the
    sources.  The accessors are typed views over a mapping node with
    positional error reporting: the child under a key, or nothing. *)
Definition get_node (node : Node) (name : string) : Result (option Node) :=
  match node with
  | MappingNode pairs _ => Ok (option_map snd (find (key_is name) pairs))
  | _ => Raise (YAMLProcessingError "Expected mapping" (start_mark node))
  end.

(** Modelled from the spec: [getSequence(node, key) -> node?]; a child of
    another kind is a structural error at the child's position. *)
Definition get_sequence_node (node : Node) (name : string) : Result (option Node) :=
  child <- get_node node name ;;
  match child with
  | None => Ok None
  | Some (SequenceNode v m) => Ok (Some (SequenceNode v m))
  | Some other => Raise (YAMLProcessingError "Expected sequence" (start_mark other))
  end.

(** Modelled from the spec: [getMapping(node, key) -> node?]. *)
Definition get_mapping_node (node : Node) (name : string) : Result (option Node) :=
  child <- get_node node name ;;
  match child with
  | None => Ok None
  | Some (MappingNode v m) => Ok (Some (MappingNode v m))
  | Some other => Raise (YAMLProcessingError "Expected mapping" (start_mark other))
  end.

(** Modelled from the spec: [getString(node, key, default?) -> (value,
    sourcePosition)]; there is no position when the default is taken. *)
Definition get_str_value (node : Node) (name default : string)
  : Result (string * option Mark) :=
  child <- get_node node name ;;
  match child with
  | None => Ok (default, None)
  | Some (ScalarNode s m) => Ok (s, Some m)
  | Some other => Raise (YAMLProcessingError "Expected string" (start_mark other))
  end.

(** Modelled from the spec: [getMandatorySequence(node, key) -> value |
    fails with MissingFieldError]; the error names the key. *)
Definition get_mandatory_sequence (node : Node) (name : string) : Result (list Node) :=
  child <- get_sequence_node node name ;;
  match child with
  | Some (SequenceNode v _) => Ok v
  | _ => Raise (MissingFieldError name (start_mark node))
  end.

(** Modelled from the spec: [getMandatoryString(node, key) -> value | fails
    with MissingFieldError], the value coming with its position. *)
Definition get_mandatory_str_value (node : Node) (name : string)
  : Result (string * Mark) :=
  child <- get_node node name ;;
  match child with
  | None => Raise (MissingFieldError name (start_mark node))
  | Some (ScalarNode s m) => Ok (s, m)
  | Some other => Raise (YAMLProcessingError "Expected string" (start_mark other))
  end.

(** [node.value] of a node that an accessor returned as a sequence node. *)
Definition sequence_value (n : Node) : list Node :=
  match n with SequenceNode v _ => v | _ => [] end.

(** [node.value] of a node that an accessor returned as a mapping node. *)
Definition mapping_value (n : Node) : list (Node * Node) :=
  match n with MappingNode v _ => v | _ => [] end.

(** ** The ninja writer (moulin.ninja_syntax.Writer) *)

(** Modelled from the spec: moulin/ninja_syntax.py is not among the
    sources.  The writer takes build-edge declarations (outputs, rule name,
    inputs, variables) and blank lines, and serializes them in the order of
    the calls; it is modelled by the list of what it was given.  A single
    path given for [outputs] or [inputs] is the list of that one path, and
    [variables] is a dictionary in insertion order. *)
Inductive Statement : Type :=
| Build (outputs : list string) (rule : string) (inputs : list string)
        (variables : list (string * string))
| Newline.

Definition Writer : Type := list Statement.

Definition is_Build (s : Statement) : bool :=
  match s with Build _ _ _ _ => true | Newline => false end.

(** The build edges among the statements written. *)
Definition build_edges (w : Writer) : list Statement := filter is_Build w.

Definition edge_outputs (s : Statement) : list string :=
  match s with Build o _ _ _ => o | Newline => [] end.

Definition edge_inputs (s : Statement) : list string :=
  match s with Build _ _ i _ => i | Newline => [] end.

Definition edge_rule (s : Statement) : string :=
  match s with Build _ r _ _ => r | Newline => "" end.

(** Code that writes to the generator and may raise: the writer is
    threaded through, and what was written before an exception stays
    written. *)
Definition Gen (A : Type) : Type := Writer -> Result A * Writer.

Definition retG {A} (a : A) : Gen A := fun w => (Ok a, w).

Definition bindG {A B} (m : Gen A) (k : A -> Gen B) : Gen B :=
  fun w =>
    match m w with
    | (Ok a, w') => k a w'
    | (Raise e, w') => (Raise e, w')
    end.

(** A computation that does not touch the generator. *)
Definition pure {A} (r : Result A) : Gen A := fun w => (r, w).

Definition generator_build (outputs : list string) (rule : string)
  (inputs : list string) (variables : list (string * string)) : Gen unit :=
  fun w => (Ok tt, (w ++ [Build outputs rule inputs variables])%list).

Definition generator_newline : Gen unit :=
  fun w => (Ok tt, (w ++ [Newline])%list).

Declare Scope gen_scope.
Delimit Scope gen_scope with gen.
Notation "x <- e ;; k" := (bindG e (fun x => k))
  (at level 61, e at next level, right associativity) : gen_scope.
Notation "e ;;; k" := (bindG e (fun _ => k))
  (at level 61, right associativity) : gen_scope.

(** ** YoctoBuilder *)

(** The fields [__init__] sets, the generator apart: it is the writer the
    methods thread through. *)
Record YoctoBuilder : Type := mkYoctoBuilder {
  conf : Node;
  name : string;
  src_stamps : list string;
  yocto_dir : string;
  work_dir : string
}.

(** [YoctoBuilder.__init__] *)
Definition YoctoBuilder_init (conf : Node) (name build_dir : string)
  (src_stamps : list string) : Result YoctoBuilder :=
  work <- get_str_value conf "work_dir" "build" ;;
  Ok (mkYoctoBuilder conf name src_stamps build_dir (fst work)).

(** [get_builder] *)
Definition get_builder (conf : Node) (name build_dir : string)
  (src_stamps : list string) : Result YoctoBuilder :=
  YoctoBuilder_init conf name build_dir src_stamps.

(** [v.replace("$", "$$")] on a run-time value: only a string has the
    method. *)
Definition escape_dollar (v : PyValue) : Result string :=
  match v with
  | PyStr s => Ok (replace "$" "$$" s)
  | _ => Raise AttributeError
  end.

(** The assignment [key = "value"] of a directive. *)
Definition assignment (k v : string) : string :=
  k ++ " = " ++ String dquote (v ++ String dquote EmptyString).

(** One element of [local_conf_lines]. *)
Definition conf_line (kv : DirectivePair) : Result string :=
  k <- escape_dollar (fst kv) ;;
  v <- escape_dollar (snd kv) ;;
  Ok (shlex_quote (assignment k v)).

Section Environment.

(** What [os.getcwd()] returns. *)
Variable getcwd : string.

(** [moulin.utils.create_stamp_name], which is not among the sources: a
    function of the keywords it is given. *)
Variable create_stamp_name : list string -> string.

(** What [str()] gives for a value that is not a string (a list of
    nodes), as an f-string formats it. *)
Variable py_str : PyValue -> string.

(** [f"{v}"] *)
Definition format_value (v : PyValue) : string :=
  match v with
  | PyStr s => s
  | other => py_str other
  end.

(** The body of the loop of [_get_external_src]: the entry one item of
    the mapping adds to [ret]. *)
Definition external_src_entry (item : Node * Node) : Result DirectivePair :=
  let (key_node, val_node) := item in
  path <- (if is_SequenceNode val_node
           then os_path_join_values (map node_value (sequence_value val_node))
           else as_str (node_value val_node)) ;;
  let path := abspath getcwd path in
  Ok (PyStr ("EXTERNALSRC_pn-" ++ format_value (node_value key_node)), PyStr path).

Fixpoint external_src_loop (items : list (Node * Node)) (ret : list DirectivePair)
  : Result (list DirectivePair) :=
  match items with
  | [] => Ok ret
  | item :: rest =>
      e <- external_src_entry item ;;
      external_src_loop rest (ret ++ [e])%list
  end.

(** [YoctoBuilder._get_external_src] *)
Definition _get_external_src (self : YoctoBuilder) : Result (list DirectivePair) :=
  external_src_node <- get_mapping_node (conf self) "external_src" ;;
  match external_src_node with
  | None => Ok []
  | Some n => external_src_loop (mapping_value n) []
  end.

Definition common_variables (self : YoctoBuilder) : list (string * string) :=
  [("yocto_dir", yocto_dir self); ("work_dir", work_dir self)].

Definition env_target (self : YoctoBuilder) : string :=
  os_path_join (yocto_dir self) [work_dir self; "conf"; "local.conf"].

Definition layers_stamp (self : YoctoBuilder) : string :=
  create_stamp_name [yocto_dir self; work_dir self; "yocto"; "layers"].

Definition local_conf_target (self : YoctoBuilder) : string :=
  os_path_join (yocto_dir self) [work_dir self; "conf"; "moulin.conf"].

(** The value of [layers]. *)
Definition layers_of (self : YoctoBuilder) : Result string :=
  layers_node <- get_sequence_node (conf self) "layers" ;;
  match layers_node with
  | Some n =>
      items <- comprehension as_str (map node_value (sequence_value n)) ;;
      Ok (str_join " " items)
  | None => Ok ""
  end.

(** [local_conf] as the [conf] node declares it. *)
Definition declared_conf_of (self : YoctoBuilder) : Result (list DirectivePair) :=
  local_conf_node <- get_sequence_node (conf self) "conf" ;;
  match local_conf_node with
  | Some n => _flatten_yocto_conf n
  | None => Ok []
  end.

(** [local_conf] once the external sources were added to it. *)
Definition local_conf_of (self : YoctoBuilder) : Result (list DirectivePair) :=
  local_conf <- declared_conf_of self ;;
  external <- _get_external_src self ;;
  Ok (local_conf ++ external)%list.

(** The value of the variable [conf] of the third edge. *)
Definition conf_of (self : YoctoBuilder) : Result string :=
  local_conf <- local_conf_of self ;;
  local_conf_lines <- comprehension conf_line local_conf ;;
  Ok (str_join " " local_conf_lines).

Definition targets_of (self : YoctoBuilder) : Result (list string) :=
  images <- get_mandatory_sequence (conf self) "target_images" ;;
  comprehension
    (fun t => v <- as_str (node_value t) ;;
              Ok (os_path_join (yocto_dir self) [work_dir self; v]))
    images.

(** [deps] before [local_conf_target] is appended to it. *)
Definition additional_deps_of (self : YoctoBuilder) : Result (list string) :=
  additional_deps_node <- get_sequence_node (conf self) "additional_deps" ;;
  match additional_deps_node with
  | Some n =>
      comprehension
        (fun d => v <- as_str (node_value d) ;;
                  Ok (os_path_join (yocto_dir self) [v]))
        (sequence_value n)
  | None => Ok []
  end.

Definition deps_of (self : YoctoBuilder) : Result (list string) :=
  deps <- additional_deps_of self ;;
  Ok (deps ++ [local_conf_target self])%list.

(** [YoctoBuilder.gen_build] *)
Definition gen_build (self : YoctoBuilder) : Gen (list string) :=
  (generator_build [env_target self] "yocto_init_env" (src_stamps self)
     (common_variables self) ;;;
   layers <- pure (layers_of self) ;;
   generator_build [layers_stamp self] "yocto_add_layers" [env_target self]
     (common_variables self ++ [("layers", layers)])%list ;;;
   conf_lines <- pure (conf_of self) ;;
   generator_build [local_conf_target self] "yocto_update_conf" [layers_stamp self]
     (common_variables self ++ [("conf", conf_lines)])%list ;;;
   generator_newline ;;;
   generator_build ["conf-" ++ name self] "phony" [local_conf_target self] [] ;;;
   generator_newline ;;;
   targets <- pure (targets_of self) ;;
   deps <- pure (deps_of self) ;;
   target <- pure (get_mandatory_str_value (conf self) "build_target") ;;
   generator_build targets "yocto_build" deps
     (common_variables self ++ [("target", fst target); ("name", name self)])%list ;;;
   retG targets)%gen.

(** The edges [gen_build] declares, by stage. *)
Definition env_edge (self : YoctoBuilder) : Statement :=
  Build [env_target self] "yocto_init_env" (src_stamps self) (common_variables self).

Definition layers_edge (self : YoctoBuilder) (layers : string) : Statement :=
  Build [layers_stamp self] "yocto_add_layers" [env_target self]
    (common_variables self ++ [("layers", layers)]).

Definition conf_edge (self : YoctoBuilder) (conf_lines : string) : Statement :=
  Build [local_conf_target self] "yocto_update_conf" [layers_stamp self]
    (common_variables self ++ [("conf", conf_lines)]).

Definition alias_edge (self : YoctoBuilder) : Statement :=
  Build ["conf-" ++ name self] "phony" [local_conf_target self] [].

Definition build_edge (self : YoctoBuilder) (targets deps : list string)
  (target : string) : Statement :=
  Build targets "yocto_build" deps
    (common_variables self ++ [("target", target); ("name", name self)]).

(** The outputs of the first three build edges written: the markers
    that sequence the stages. *)
Definition stage_markers (w : Writer) : list (list string) :=
  map edge_outputs (firstn 3 (build_edges w)).

(** What [gen_build] has written when it ends, by the step that ends it:
    the statements of a stage are written as soon as its values are
    computed, before those of the next stage are looked at. *)
Definition gen_build_trace (self : YoctoBuilder) : Result (list string) * Writer :=
  match layers_of self with
  | Raise e => (Raise e, [env_edge self])
  | Ok layers =>
      match conf_of self with
      | Raise e => (Raise e, [env_edge self; layers_edge self layers])
      | Ok conf_lines =>
          let written :=
            [env_edge self; layers_edge self layers; conf_edge self conf_lines;
             Newline; alias_edge self; Newline] in
          match targets_of self with
          | Raise e => (Raise e, written)
          | Ok targets =>
              match deps_of self with
              | Raise e => (Raise e, written)
              | Ok deps =>
                  match get_mandatory_str_value (conf self) "build_target" with
                  | Raise e => (Raise e, written)
                  | Ok target =>
                      (Ok targets,
                       (written ++ [build_edge self targets deps (fst target)])%list)
                  end
              end
          end
      end
  end.

End Environment.

(** The string of a scalar node. *)
Definition scalar_string (x : Node) : option string :=
  match x with
  | ScalarNode s _ => Some s
  | _ => None
  end.

(** The path an external source is given by: a plain path, or the
    segments of a path to join. *)
Definition external_src_path (val : Node) : option string :=
  match val with
  | ScalarNode s _ => Some s
  | SequenceNode segments _ =>
      match all_defined (map scalar_string segments) with
      | Some (a :: p) => Some (os_path_join a p)
      | _ => None
      end
  | MappingNode _ _ => None
  end.

(** An item of the [external_src] mapping whose value gives a path. *)
Definition has_path (item : Node * Node) : bool :=
  match external_src_path (snd item) with
  | Some _ => true
  | None => false
  end.

(** ** What reads a materialized directive back *)

(** Modelled from the spec: the variable expander of the build tool, in
    whose syntax a literal dollar sign is written doubled.  A dollar sign
    followed by anything else refers to a variable or is another escape;
    its expansion depends on the bindings of the build file and is left
    undefined. *)
Fixpoint ninja_expand (s : string) : option string :=
  match s with
  | EmptyString => Some EmptyString
  | String c rest =>
      if Ascii.eqb c "$" then
        match rest with
        | String d rest' =>
            if Ascii.eqb d "$"
            then option_map (String "$") (ninja_expand rest')
            else None
        | EmptyString => None
        end
      else option_map (String c) (ninja_expand rest)
  end.

Inductive QuoteState : Type := Unquoted | InSingle | InDouble.

(** Modelled from the spec: the shell reading one token back.  Between
    single quotes every character stands for itself; between double quotes
    every character but the backslash, the dollar sign and the backquote
    does; outside of quotes only the characters that need no quoting do.
    What is left undefined is either not a single token (a blank or an
    operator outside of quotes, an open quote at the end) or an expansion
    of the shell. *)
Fixpoint shell_unquote_from (st : QuoteState) (s : string) : option string :=
  match s with
  | EmptyString =>
      match st with
      | Unquoted => Some EmptyString
      | _ => None
      end
  | String c rest =>
      match st with
      | InSingle =>
          if Ascii.eqb c "'" then shell_unquote_from Unquoted rest
          else option_map (String c) (shell_unquote_from InSingle rest)
      | InDouble =>
          if Ascii.eqb c dquote then shell_unquote_from Unquoted rest
          else if existsb (Ascii.eqb c) ["\"; "$"; "`"]%char then None
          else option_map (String c) (shell_unquote_from InDouble rest)
      | Unquoted =>
          if Ascii.eqb c "'" then shell_unquote_from InSingle rest
          else if Ascii.eqb c dquote then shell_unquote_from InDouble rest
          else if is_unsafe c then None
          else option_map (String c) (shell_unquote_from Unquoted rest)
      end
  end.

Definition shell_unquote (s : string) : option string :=
  shell_unquote_from Unquoted s.

(** ** Example configurations *)

Definition m0 : Mark := mkMark 0 0.

Definition scalar (s : string) : Node := ScalarNode s m0.
Definition seq (l : list Node) : Node := SequenceNode l m0.
Definition mapping (l : list (string * Node)) : Node :=
  MappingNode (map (fun kv => (scalar (fst kv), snd kv)) l) m0.

(** The conf entries of scenario B. *)
Definition scenario_B_conf : Node :=
  seq [seq [scalar "FOO"; scalar "1"];
       seq [seq [scalar "BAR"; scalar "2"]; seq [scalar "BAZ"; scalar "3"]]].

(** A stand-in for [create_stamp_name] where an example has to run. *)
Definition example_stamp_name (args : list string) : string :=
  ".stamps/" ++ str_join "-" args.

Definition example_py_str (v : PyValue) : string := "[...]".

(** Scenario A: no layers, no conf entries, no external sources. *)
Definition scenario_A_conf : Node :=
  mapping [("target_images", seq [scalar "image.wic"]);
           ("build_target", scalar "core-image-minimal")].

Definition scenario_A : YoctoBuilder :=
  mkYoctoBuilder scenario_A_conf "a" ["src.stamp"] "base" "build".

(** Scenario D: as scenario A, without [target_images]. *)
Definition scenario_D : YoctoBuilder :=
  mkYoctoBuilder (mapping [("build_target", scalar "core-image-minimal")])
    "a" ["src.stamp"] "base" "build".

(** What scenario A writes to an empty generator. *)
Definition scenario_A_statements : Writer :=
  [Build ["base/build/conf/local.conf"] "yocto_init_env" ["src.stamp"]
     [("yocto_dir", "base"); ("work_dir", "build")];
   Build [".stamps/base-build-yocto-layers"] "yocto_add_layers"
     ["base/build/conf/local.conf"]
     [("yocto_dir", "base"); ("work_dir", "build"); ("layers", "")];
   Build ["base/build/conf/moulin.conf"] "yocto_update_conf"
     [".stamps/base-build-yocto-layers"]
     [("yocto_dir", "base"); ("work_dir", "build"); ("conf", "")];
   Newline;
   Build ["conf-a"] "phony" ["base/build/conf/moulin.conf"] [];
   Newline;
   Build ["base/build/image.wic"] "yocto_build" ["base/build/conf/moulin.conf"]
     [("yocto_dir", "base"); ("work_dir", "build");
      ("target", "core-image-minimal"); ("name", "a")]].

(** A second instance, named b, on the directories of scenario A. *)
Definition scenario_A_twin : YoctoBuilder :=
  mkYoctoBuilder scenario_A_conf "b" ["src.stamp"] "base" "build".

(** Scenario A with two layers. *)
Definition scenario_layers : YoctoBuilder :=
  mkYoctoBuilder
    (mapping [("layers", seq [scalar "../meta-a"; scalar "../meta-b"]);
              ("target_images", seq [scalar "image.wic"]);
              ("build_target", scalar "core-image-minimal")])
    "a" ["src.stamp"] "base" "build".

(** Scenario C: one conf entry and one external source given by the
    segments of its path. *)
Definition scenario_C_items : list (Node * Node) :=
  [(scalar "mylib", seq [scalar "srcs"; scalar "mylib"])].

Definition scenario_C : YoctoBuilder :=
  mkYoctoBuilder
    (MappingNode
       [(scalar "conf", seq [seq [scalar "FOO"; scalar "1"]]);
        (scalar "external_src", MappingNode scenario_C_items m0)] m0)
    "a" ["src.stamp"] "base" "build".

(** ** The flattening contract, in the words of the specification *)

(** [(n[0], n[1])] of a pair node. *)
Definition pair_of (n : Node) : option DirectivePair :=
  match sequence_value n with
  | a :: b :: _ => Some (node_value a, node_value b)
  | _ => None
  end.

(** The leaves of one entry: an entry whose first element is itself a
    sequence is a group and gives each inner pair in order, any other
    entry gives the single pair it is. *)
Definition entry_leaves (entry : Node) : option (list DirectivePair) :=
  match sequence_value entry with
  | first :: _ =>
      if is_SequenceNode first
      then all_defined (map pair_of (sequence_value entry))
      else option_map (fun p => [p]) (pair_of entry)
  | [] => None
  end.

(** The leaves of all entries, in encounter order. *)
Definition leaves_in_encounter_order (entries : list Node)
  : option (list DirectivePair) :=
  option_map (@concat DirectivePair) (all_defined (map entry_leaves entries)).

(** How many pairs an entry stands for: the members of a group, or one. *)
Definition leaf_count (entry : Node) : nat :=
  match sequence_value entry with
  | first :: _ =>
      if is_SequenceNode first then length (sequence_value entry) else 1
  | [] => 0
  end.

(** A node with at least two elements. *)
Definition has_two_elements (n : Node) : bool :=
  match n with
  | SequenceNode (_ :: _ :: _) _ => true
  | _ => false
  end.

(** The precondition of flattening: every entry has at least two elements
    and so has every member of a group. *)
Definition well_formed_entry (entry : Node) : bool :=
  has_two_elements entry
  && match sequence_value entry with
     | first :: _ =>
         if is_SequenceNode first
         then forallb has_two_elements (sequence_value entry)
         else true
     | [] => true
     end.

(** ** gen_build_rules *)

(** Modelled from the spec: the writer also takes rule templates (name,
    command template, description, pool, restat); moulin/ninja_syntax.py is
    not among the sources.  What a generator was given is a list of rule
    declarations and of the statements above, in the order of the calls. *)
Inductive Declaration : Type :=
| RuleDecl (rule_name command description : string) (pool : option string)
           (restat : bool)
| Written (s : Statement).

(** [" && ".join(cmds)] *)
Definition and_join (cmds : list string) : string := str_join " && " cmds.

(** [f'bash -c "{cmd}"'] *)
Definition bash_c (cmd : string) : string :=
  "bash -c " ++ String dquote (cmd ++ String dquote EmptyString).

Definition init_env_cmd : string :=
  and_join ["cd $yocto_dir"; "source poky/oe-init-build-env $work_dir"].

Definition add_layers_cmd : string :=
  and_join ["cd $yocto_dir";
            "source poky/oe-init-build-env $work_dir";
            "bitbake-layers add-layer $layers";
            "touch $out"].

Definition update_conf_cmd : string :=
  and_join
    ["cd $yocto_dir";
     "echo '# Code generated by moulin. All manual changes will be lost' > $work_dir/conf/moulin.conf";
     "for x in $conf; do echo $$x >> $work_dir/conf/moulin.conf; done";
     "sed " ++ String dquote ("/require moulin\.conf/d"
                              ++ String dquote " -i $work_dir/conf/local.conf");
     "echo 'require moulin.conf' >> $work_dir/conf/local.conf"].

Definition build_cmd : string :=
  and_join ["cd $yocto_dir";
            "source poky/oe-init-build-env $work_dir";
            "bitbake $target"].

(** [gen_build_rules]: four rules with a blank line between two. *)
Definition gen_build_rules (generator : list Declaration) : list Declaration :=
  (generator
   ++ [RuleDecl "yocto_init_env" (bash_c init_env_cmd)
         "Initialize Yocto build environment" None false;
       Written Newline;
       RuleDecl "yocto_add_layers" (bash_c add_layers_cmd)
         "Add yocto layers" (Some "console") false;
       Written Newline;
       RuleDecl "yocto_update_conf" update_conf_cmd
         "Update local.conf" None false;
       Written Newline;
       RuleDecl "yocto_build" (bash_c build_cmd)
         "Yocto Build: $name" (Some "console") true])%list.

Definition edge_variables (s : Statement) : list (string * string) :=
  match s with Build _ _ _ v => v | Newline => [] end.

(** A character of a plain variable name of the build tool. *)
Definition is_varname_char (c : ascii) : bool :=
  is_word_char c || Ascii.eqb c "-".

Inductive ScanState : Type :=
| Text
| AfterDollar
| InName (acc : string)
| InBraces (acc : string).

(** Modelled from the spec: the variable-substitution syntax of the build
    tool.  A dollar sign followed by a name, or by a name between braces,
    refers to a variable; a doubled dollar sign is a literal one, and a
    dollar sign before another character is an escape of that character.
    The function lists the variables a template refers to. *)
Fixpoint var_refs_from (st : ScanState) (s : string) : list string :=
  match s with
  | EmptyString =>
      match st with
      | InName acc => [acc]
      | _ => []
      end
  | String c rest =>
      match st with
      | Text =>
          if Ascii.eqb c "$" then var_refs_from AfterDollar rest
          else var_refs_from Text rest
      | AfterDollar =>
          if Ascii.eqb c "{" then var_refs_from (InBraces EmptyString) rest
          else if is_varname_char c
               then var_refs_from (InName (String c EmptyString)) rest
               else var_refs_from Text rest
      | InName acc =>
          if is_varname_char c
          then var_refs_from (InName (acc ++ String c EmptyString)) rest
          else if Ascii.eqb c "$" then acc :: var_refs_from AfterDollar rest
               else acc :: var_refs_from Text rest
      | InBraces acc =>
          if Ascii.eqb c "}" then acc :: var_refs_from Text rest
          else var_refs_from (InBraces (acc ++ String c EmptyString)) rest
      end
  end.

Definition var_refs (template : string) : list string :=
  var_refs_from Text template.

(** ** More on the flattening *)

(** An entry that [_flatten_yocto_conf] accepts: a group whose members
    all have two elements, or a pair. *)
Definition flattenable (entry : Node) : bool :=
  match entry with
  | SequenceNode (first :: rest) _ =>
      if is_SequenceNode first
      then forallb has_two_elements (first :: rest)
      else match rest with
           | [] => false
           | _ :: _ => true
           end
  | _ => false
  end.

(** A pair entry: at least two elements, the first of which is not a
    sequence. *)
Definition is_pair_entry (entry : Node) : bool :=
  match entry with
  | SequenceNode (first :: _ :: _) _ => negb (is_SequenceNode first)
  | _ => false
  end.

(** A directive whose key and value are both strings. *)
Definition is_string_pair (kv : DirectivePair) : bool :=
  match kv with
  | (PyStr _, PyStr _) => true
  | _ => false
  end.

(** The directive of a key and a value that are strings. *)
Definition string_pair (kv : string * string) : DirectivePair :=
  (PyStr (fst kv), PyStr (snd kv)).

(** ** The shell reading a list of words *)

Definition push_char (c : ascii) (words : option (list string))
  : option (list string) :=
  match words with
  | Some (word :: others) => Some (String c word :: others)
  | _ => None
  end.

(** Modelled from the spec: the shell splitting a line into words, with
    the quoting of [shell_unquote_from].  A blank outside of quotes ends a
    word; [in_word] tells whether a word has begun.  The first word of the
    result is what is left of the word being read. *)
Fixpoint shell_words_from (st : QuoteState) (in_word : bool) (s : string)
  : option (list string) :=
  match s with
  | EmptyString =>
      match st with
      | Unquoted => Some (if in_word then [EmptyString] else [])
      | _ => None
      end
  | String c rest =>
      match st with
      | InSingle =>
          if Ascii.eqb c "'" then shell_words_from Unquoted true rest
          else push_char c (shell_words_from InSingle true rest)
      | InDouble =>
          if Ascii.eqb c dquote then shell_words_from Unquoted true rest
          else if existsb (Ascii.eqb c) ["\"; "$"; "`"]%char then None
          else push_char c (shell_words_from InDouble true rest)
      | Unquoted =>
          if Ascii.eqb c " " then
            if in_word
            then option_map (cons EmptyString) (shell_words_from Unquoted false rest)
            else shell_words_from Unquoted false rest
          else if Ascii.eqb c "'" then shell_words_from InSingle true rest
          else if Ascii.eqb c dquote then shell_words_from InDouble true rest
          else if is_unsafe c then None
          else push_char c (shell_words_from Unquoted true rest)
      end
  end.

Definition shell_words (s : string) : option (list string) :=
  shell_words_from Unquoted false s.

(** The characters of [s] put before the first word of [words]. *)
Fixpoint push_string (s : string) (words : option (list string))
  : option (list string) :=
  match s with
  | EmptyString => words
  | String c rest => push_char c (push_string rest words)
  end.

(** What [shlex.quote] makes of a string that needs quoting. *)
Definition single_quoted (s : string) : string :=
  "'" ++ replace "'" quoted_squote s ++ "'".

(** The part of a joined path that stands before a relative last
    component. *)
Definition join_prefix (path : string) : string :=
  if (path =? "") || endswith_char "/" path then path else path ++ sep.

(** A pair whose key and value are scalars. *)
Definition scalar_pair (n : Node) : bool :=
  match n with
  | SequenceNode (ScalarNode _ _ :: ScalarNode _ _ :: _) _ => true
  | _ => false
  end.

(** An entry of scalars: a pair of scalars, or a group of such pairs. *)
Definition scalar_entry (entry : Node) : bool :=
  scalar_pair entry
  || match entry with
     | SequenceNode (first :: rest) _ =>
         is_SequenceNode first && forallb scalar_pair (first :: rest)
     | _ => false
     end.

(** The configuration that holds the two mandatory keys and no other. *)
Definition minimal_conf (images : list string) (target : string) : Node :=
  mapping [("target_images", seq (map scalar images));
           ("build_target", scalar target)].

(** Scenario B as the conf node of a builder, with a directive that holds
    blanks, quotes and dollar signs. *)
Definition scenario_conf : YoctoBuilder :=
  mkYoctoBuilder
    (mapping [("conf", seq [seq [scalar "FOO"; scalar "a b"];
                            seq [seq [scalar "BAR"; scalar "$x's"];
                                 seq [scalar "BAZ"; scalar "3"]]]);
              ("target_images", seq [scalar "image.wic"; scalar "/abs/image.wic"]);
              ("additional_deps", seq [scalar "dep"]);
              ("build_target", scalar "core-image-minimal")])
    "a" ["src.stamp"] "base" "build".

(** A group nested in a group: [_flatten_yocto_conf] takes the inner
    pairs of the nested group for a key and a value. *)
Definition scenario_nested : YoctoBuilder :=
  mkYoctoBuilder
    (mapping [("conf", seq [seq [seq [seq [scalar "A"; scalar "1"];
                                      seq [scalar "B"; scalar "2"]]]]);
              ("target_images", seq [scalar "image.wic"]);
              ("build_target", scalar "core-image-minimal")])
    "a" ["src.stamp"] "base" "build".

(** Scenario A without [build_target]. *)
Definition scenario_no_target : YoctoBuilder :=
  mkYoctoBuilder (mapping [("target_images", seq [scalar "image.wic"])])
    "a" ["src.stamp"] "base" "build".

(** Case analysis on the results a trace depends on. *)
Ltac trace_cases :=
  repeat match goal with
         | |- context [match ?r with Ok _ => _ | Raise _ => _ end] => destruct r
         end.

(** * Properties *)

(** ** Flattening *)

Lemma member_pair_pair_of (x : Node) (p : DirectivePair) :
  member_pair x = Ok p <-> pair_of x = Some p.
Proof.
  destruct x as [s m | v m | v m]; cbn.
  - destruct s; split; discriminate.
  - destruct v as [| a [| b v']]; cbn; split; intros H;
      try discriminate; inversion H; reflexivity.
  - destruct v; split; discriminate.
Qed.

Lemma comprehension_all_defined {A B} (f : A -> Result B) (g : A -> option B) :
  (forall x y, f x = Ok y <-> g x = Some y) ->
  forall (l : list A) (r : list B),
    comprehension f l = Ok r <-> all_defined (map g l) = Some r.
Proof.
  intros Hfg l; induction l as [| x l IH]; intros r; cbn.
  - split; intros H; inversion H; reflexivity.
  - destruct (f x) as [y | e] eqn:Hf; cbn.
    + apply Hfg in Hf. rewrite Hf.
      destruct (comprehension f l) as [ys | e] eqn:Hc; cbn.
      * rewrite (proj1 (IH ys) eq_refl). cbn.
        split; intros H; inversion H; reflexivity.
      * destruct (all_defined (map g l)) as [ys |] eqn:Ha; cbn.
        -- discriminate (proj2 (IH ys) eq_refl).
        -- split; discriminate.
    + destruct (g x) as [y |] eqn:Hg.
      * apply Hfg in Hg. congruence.
      * split; discriminate.
Qed.

Lemma flatten_entry_leaves (entry : Node) (r : list DirectivePair) :
  flatten_entry entry = Ok r <-> entry_leaves entry = Some r.
Proof.
  destruct entry as [s m | v m | v m]; cbn; try (split; discriminate).
  unfold entry_leaves; cbn.
  destruct v as [| first v']; cbn; [split; discriminate |].
  destruct (is_SequenceNode first) eqn:Hseq.
  - apply (comprehension_all_defined member_pair pair_of member_pair_pair_of
             (first :: v')).
  - unfold pair_of; cbn.
    destruct v' as [| second v'']; cbn; [split; discriminate |].
    split; intros H; inversion H; reflexivity.
Qed.

Lemma flatten_loop_leaves (entries : list Node) :
  forall result l,
    flatten_loop entries result = Ok l <->
    exists r, leaves_in_encounter_order entries = Some r /\ l = (result ++ r)%list.
Proof.
  unfold leaves_in_encounter_order.
  induction entries as [| entry entries IH]; intros result l; cbn.
  - split.
    + intros H; inversion H. exists []. now rewrite app_nil_r.
    + intros [r [H ->]]. inversion H. now rewrite app_nil_r.
  - destruct (flatten_entry entry) as [r0 | e] eqn:He; cbn.
    + apply flatten_entry_leaves in He. rewrite He.
      rewrite IH. split.
      * intros [r [Hr ->]].
        destruct (all_defined (map entry_leaves entries)) as [rs |]; [| discriminate].
        cbn in Hr. inversion Hr; subst. exists (r0 ++ concat rs)%list.
        cbn. now rewrite app_assoc.
      * intros [r [Hr ->]].
        destruct (all_defined (map entry_leaves entries)) as [rs |]; [| discriminate].
        cbn in Hr. inversion Hr; subst. exists (concat rs).
        cbn. now rewrite app_assoc.
    + destruct (entry_leaves entry) as [r0 |] eqn:Hl.
      * apply flatten_entry_leaves in Hl. congruence.
      * split; [discriminate | intros [r [H _]]; discriminate].
Qed.

Lemma flatten_entry_length (entry : Node) (r : list DirectivePair) :
  flatten_entry entry = Ok r -> length r = leaf_count entry.
Proof.
  destruct entry as [s m | v m | v m]; cbn; try discriminate.
  unfold leaf_count; cbn.
  destruct v as [| first v']; cbn; [discriminate |].
  destruct (is_SequenceNode first).
  - change (comprehension member_pair (first :: v') = Ok r ->
            length r = length (first :: v')).
    generalize (first :: v'); intros l; revert r.
    induction l as [| x l IH]; intros r; cbn.
    + intros H; inversion H; reflexivity.
    + destruct (member_pair x); cbn; [| discriminate].
      destruct (comprehension member_pair l) as [ys |]; cbn; [| discriminate].
      intros H; inversion H; cbn. now rewrite (IH ys).
  - destruct v' as [| second v'']; cbn; [discriminate |].
    intros H; inversion H; reflexivity.
Qed.

Lemma flatten_loop_length (entries : list Node) :
  forall result l,
    flatten_loop entries result = Ok l ->
    length l = length result + list_sum (map leaf_count entries).
Proof.
  induction entries as [| entry entries IH]; intros result l; cbn.
  - intros H; inversion H; lia.
  - destruct (flatten_entry entry) as [r0 | e] eqn:He; cbn; [| discriminate].
    intros H. apply IH in H. rewrite H, length_app.
    rewrite (flatten_entry_length _ _ He).
    unfold list_sum; cbn. fold (list_sum (map leaf_count entries)). lia.
Qed.

(** C2: flattening gives exactly the leaves of the entries in encounter
    order, one pair for an entry that is a pair and the inner pairs of an
    entry that is a group: it returns a list if and only if that walk is
    defined, and then this list.  The list has one pair per leaf, so no
    pair is dropped, whatever its key; scenario B flattens to FOO, BAR,
    BAZ, and two directives of the same key are both kept. *)
Theorem flatten_emits_leaves_in_encounter_order :
  (forall (entries : list Node) (m : Mark) (pairs : list DirectivePair),
      _flatten_yocto_conf (SequenceNode entries m) = Ok pairs <->
      leaves_in_encounter_order entries = Some pairs)
  /\ (forall (entries : list Node) (m : Mark) (pairs : list DirectivePair),
      _flatten_yocto_conf (SequenceNode entries m) = Ok pairs ->
      length pairs = list_sum (map leaf_count entries))
  /\ _flatten_yocto_conf scenario_B_conf
     = Ok [(PyStr "FOO", PyStr "1"); (PyStr "BAR", PyStr "2"); (PyStr "BAZ", PyStr "3")]
  /\ _flatten_yocto_conf
       (seq [seq [scalar "A"; scalar "1"]; seq [seq [scalar "A"; scalar "2"]]])
     = Ok [(PyStr "A", PyStr "1"); (PyStr "A", PyStr "2")].
Proof.
  repeat split.
  - intros H. apply flatten_loop_leaves in H. destruct H as [r [H ->]]. exact H.
  - intros H. apply flatten_loop_leaves. exists pairs. split; [exact H | reflexivity].
  - intros entries m pairs H. cbn in H. apply flatten_loop_length in H. exact H.
Qed.

Lemma flatten_loop_app (prefix rest : list Node) :
  forall result done,
    flatten_loop prefix result = Ok done ->
    flatten_loop (prefix ++ rest) result = flatten_loop rest done.
Proof.
  induction prefix as [| entry prefix IH]; intros result done; cbn.
  - intros H; inversion H; reflexivity.
  - destruct (flatten_entry entry) as [r | e]; cbn; [| discriminate].
    apply IH.
Qed.

Lemma flatten_loop_not_sequence (entries : list Node) (entry : Node) :
  In entry entries -> is_SequenceNode entry = false ->
  forall result l, flatten_loop entries result <> Ok l.
Proof.
  intros Hin Hseq.
  induction entries as [| e entries IH]; intros result l; cbn; [contradiction |].
  destruct Hin as [-> | Hin].
  - destruct entry; cbn; discriminate.
  - destruct (flatten_entry e); cbn; [apply (IH Hin) | discriminate].
Qed.

(** C8, as the code has it: when a top-level entry of the conf node is
    not a sequence, flattening produces no result; and when the loop comes
    to this entry, that is when the entries before it were flattened, it
    raises the processing error that carries the start mark of the entry.
    An entry before it that cannot be flattened raises first. *)
Theorem flatten_rejects_bare_scalar
  (entries : list Node) (m : Mark) (entry : Node) :
  In entry entries ->
  is_SequenceNode entry = false ->
  (forall l, _flatten_yocto_conf (SequenceNode entries m) <> Ok l)
  /\ (forall prefix rest done,
         entries = (prefix ++ entry :: rest)%list ->
         flatten_loop prefix [] = Ok done ->
         _flatten_yocto_conf (SequenceNode entries m)
         = Raise (YAMLProcessingError expected_array (start_mark entry))).
Proof.
  intros Hin Hseq. split.
  - intros l. cbn. apply (flatten_loop_not_sequence entries entry Hin Hseq).
  - intros prefix rest done -> Hprefix. cbn.
    rewrite (flatten_loop_app prefix (entry :: rest) [] done Hprefix).
    destruct entry; cbn; try reflexivity. discriminate.
Qed.

(** The bare scalar of line 3 is reported, after one pair was flattened. *)
Lemma flatten_rejects_bare_scalar_witness :
  (forall l, _flatten_yocto_conf
               (seq [seq [scalar "FOO"; scalar "1"]; ScalarNode "BAR" (mkMark 3 2)])
             <> Ok l)
  /\ _flatten_yocto_conf
       (seq [seq [scalar "FOO"; scalar "1"]; ScalarNode "BAR" (mkMark 3 2)])
     = Raise (YAMLProcessingError expected_array (mkMark 3 2)).
Proof.
  destruct (flatten_rejects_bare_scalar
              [seq [scalar "FOO"; scalar "1"]; ScalarNode "BAR" (mkMark 3 2)]
              m0 (ScalarNode "BAR" (mkMark 3 2)))
    as [Hnone Hmark].
  - right; left; reflexivity.
  - reflexivity.
  - split.
    + exact Hnone.
    + exact (Hmark [seq [scalar "FOO"; scalar "1"]] []
               [(PyStr "FOO", PyStr "1")] eq_refl eq_refl).
Defined.

(** A bare scalar after an entry of one element: the flattening raises
    IndexError at the first entry, and not the processing error with the
    mark of the scalar. *)
Lemma flatten_short_entry_before_bare_scalar :
  In (ScalarNode "BAR" (mkMark 3 2))
     [seq [scalar "A"]; ScalarNode "BAR" (mkMark 3 2)]
  /\ is_SequenceNode (ScalarNode "BAR" (mkMark 3 2)) = false
  /\ _flatten_yocto_conf (seq [seq [scalar "A"]; ScalarNode "BAR" (mkMark 3 2)])
     = Raise IndexError
  /\ Raise IndexError
     <> @Raise (list DirectivePair)
          (YAMLProcessingError expected_array (mkMark 3 2)).
Proof.
  split; [right; left; reflexivity |].
  split; [reflexivity |]. split; [reflexivity | discriminate].
Qed.

Lemma comprehension_member_pair_total (members : list Node) :
  forallb has_two_elements members = true ->
  exists pairs, comprehension member_pair members = Ok pairs.
Proof.
  induction members as [| x members IH]; cbn; intros H.
  - eexists; reflexivity.
  - apply andb_prop in H. destruct H as [Hx Hrest].
    destruct (IH Hrest) as [ps Hps]. rewrite Hps.
    destruct x as [s mk | [| a [| b v]] mk | v mk]; try discriminate.
    cbn. eexists; reflexivity.
Qed.

Lemma flatten_entry_total (entry : Node) :
  well_formed_entry entry = true ->
  exists pairs, flatten_entry entry = Ok pairs.
Proof.
  unfold well_formed_entry. intros H.
  apply andb_prop in H. destruct H as [Htwo Hgroup].
  destruct entry as [s mk | [| first [| second v]] mk | v mk]; try discriminate.
  cbn in Hgroup |- *.
  destruct (is_SequenceNode first).
  - apply (comprehension_member_pair_total (first :: second :: v) Hgroup).
  - eexists; reflexivity.
Qed.

Lemma flatten_loop_total (entries : list Node) :
  forallb well_formed_entry entries = true ->
  forall result, exists pairs, flatten_loop entries result = Ok pairs.
Proof.
  induction entries as [| entry entries IH]; cbn; intros H result.
  - eexists; reflexivity.
  - apply andb_prop in H. destruct H as [He Hrest].
    destruct (flatten_entry_total entry He) as [r Hr]. rewrite Hr. cbn.
    apply (IH Hrest).
Qed.

Lemma comprehension_member_pair_short (good others inner : list Node) (m : Mark) :
  forallb has_two_elements good = true ->
  length inner < 2 ->
  comprehension member_pair (good ++ SequenceNode inner m :: others) = Raise IndexError.
Proof.
  intros Hgood Hlen. induction good as [| x good IH]; cbn.
  - destruct inner as [| a [| b inner]]; cbn in Hlen |- *; try reflexivity. lia.
  - cbn in Hgood. apply andb_prop in Hgood. destruct Hgood as [Hx Hgood].
    rewrite (IH Hgood).
    destruct x as [s mk | [| a [| b v]] mk | v mk]; try discriminate. reflexivity.
Qed.

Lemma first_of_group_is_sequence (good others inner : list Node) (m : Mark) :
  forallb has_two_elements good = true ->
  exists first members,
    (good ++ SequenceNode inner m :: others)%list = first :: members
    /\ is_SequenceNode first = true.
Proof.
  intros Hgood. destruct good as [| x good]; cbn.
  - eexists; eexists; split; reflexivity.
  - cbn in Hgood. apply andb_prop in Hgood. destruct Hgood as [Hx _].
    exists x, (good ++ SequenceNode inner m :: others)%list.
    split; [reflexivity |].
    destruct x as [s mk | [| a [| b v]] mk | v mk]; try discriminate. reflexivity.
Qed.

(** C10: flattening is partial on sequences of sequences.  When the loop
    comes to an entry with no element, to an entry of one element, or to a
    group with a member of fewer than two elements, it raises IndexError,
    which is not the error for a malformed structure and carries no
    position.  When every entry has at least two elements, and every
    member of a group has, flattening returns a list; the entries of
    scenario B are such. *)
Theorem flatten_partial_on_short_entries :
  (forall prefix rest done m m',
      flatten_loop prefix [] = Ok done ->
      _flatten_yocto_conf (SequenceNode (prefix ++ SequenceNode [] m' :: rest) m)
      = Raise IndexError)
  /\ (forall prefix rest done x m m',
         flatten_loop prefix [] = Ok done ->
         is_SequenceNode x = false ->
         _flatten_yocto_conf (SequenceNode (prefix ++ SequenceNode [x] m' :: rest) m)
         = Raise IndexError)
  /\ (forall prefix rest done good others inner m m' m'',
         flatten_loop prefix [] = Ok done ->
         forallb has_two_elements good = true ->
         length inner < 2 ->
         _flatten_yocto_conf
           (SequenceNode
              (prefix ++ SequenceNode (good ++ SequenceNode inner m'' :: others) m'
                 :: rest) m)
         = Raise IndexError)
  /\ (forall entries m,
         forallb well_formed_entry entries = true ->
         exists pairs, _flatten_yocto_conf (SequenceNode entries m) = Ok pairs)
  /\ forallb well_formed_entry (sequence_value scenario_B_conf) = true.
Proof.
  split; [| split; [| split; [| split]]].
  - intros prefix rest done m m' Hprefix. cbn.
    rewrite (flatten_loop_app prefix _ [] done Hprefix). reflexivity.
  - intros prefix rest done x m m' Hprefix Hx. cbn.
    rewrite (flatten_loop_app prefix _ [] done Hprefix). cbn. rewrite Hx. reflexivity.
  - intros prefix rest done good others inner m m' m'' Hprefix Hgood Hlen. cbn.
    rewrite (flatten_loop_app prefix _ [] done Hprefix).
    cbn [flatten_loop flatten_entry].
    destruct (first_of_group_is_sequence good others inner m'' Hgood)
      as (first & members & Heq & Hseq).
    rewrite (comprehension_member_pair_short good others inner m'' Hgood Hlen).
    rewrite Heq. cbn. rewrite Hseq. reflexivity.
  - intros entries m H. cbn. apply (flatten_loop_total entries H).
  - reflexivity.
Qed.

(** ** Escaping *)

Lemma string_app_assoc (a b c : string) : (a ++ b) ++ c = a ++ (b ++ c).
Proof.
  induction a as [| x a IH]; cbn; [reflexivity | now rewrite IH].
Qed.

Lemma replace_app (old : ascii) (new a b : string) :
  replace old new (a ++ b) = replace old new a ++ replace old new b.
Proof.
  induction a as [| c a IH]; cbn; [reflexivity |].
  destruct (Ascii.eqb c old); cbn; rewrite IH.
  - now rewrite string_app_assoc.
  - reflexivity.
Qed.

(** Doubling the dollar signs of the key and of the value is doubling
    those of the assignment. *)
Lemma assignment_escaped (k v : string) :
  assignment (replace "$" "$$" k) (replace "$" "$$" v)
  = replace "$" "$$" (assignment k v).
Proof.
  unfold assignment.
  rewrite (replace_app "$" "$$" k).
  change (String dquote (v ++ String dquote EmptyString))
    with (String dquote EmptyString ++ (v ++ String dquote EmptyString)).
  change (" = " ++ (String dquote EmptyString ++ (v ++ String dquote EmptyString)))
    with ((" = " ++ String dquote EmptyString) ++ (v ++ String dquote EmptyString)).
  rewrite (replace_app "$" "$$" (" = " ++ String dquote EmptyString)).
  rewrite (replace_app "$" "$$" v).
  reflexivity.
Qed.

Lemma find_unsafe_app (a b : string) :
  find_unsafe (a ++ b) = find_unsafe a || find_unsafe b.
Proof.
  induction a as [| c a IH]; cbn; [reflexivity |].
  rewrite IH. now rewrite orb_assoc.
Qed.

Lemma app_not_empty (a b : string) : b <> "" -> (a ++ b =? "") = false.
Proof.
  intros Hb. apply String.eqb_neq. destruct a; cbn; [exact Hb | discriminate].
Qed.

(** An assignment holds a blank: [shlex.quote] always puts it between
    single quotes. *)
Lemma shlex_quote_assignment (k v : string) :
  shlex_quote (assignment k v)
  = "'" ++ replace "'" quoted_squote (assignment k v) ++ "'".
Proof.
  unfold shlex_quote, assignment.
  rewrite app_not_empty by discriminate.
  rewrite find_unsafe_app. cbn. rewrite orb_true_r. reflexivity.
Qed.

(** The expander undoes the doubling under the quoting of the shell. *)
Lemma ninja_expand_quoted (s tail tail' : string) :
  ninja_expand tail = Some tail' ->
  ninja_expand (replace "'" quoted_squote (replace "$" "$$" s) ++ tail)
  = Some (replace "'" quoted_squote s ++ tail').
Proof.
  intros Htail. induction s as [| c s IH]; cbn; [exact Htail |].
  destruct (Ascii.eqb c "$") eqn:Hdollar.
  - apply Ascii.eqb_eq in Hdollar; subst c. cbn. rewrite IH. reflexivity.
  - cbn. destruct (Ascii.eqb c "'") eqn:Hquote.
    + apply Ascii.eqb_eq in Hquote; subst c. cbn. rewrite IH. reflexivity.
    + cbn. rewrite Hdollar, IH. reflexivity.
Qed.

(** The shell reads back what [shlex.quote] put between single quotes. *)
Lemma shell_unquote_single (s : string) :
  shell_unquote_from InSingle (replace "'" quoted_squote s ++ "'") = Some s.
Proof.
  induction s as [| c s IH]; cbn; [reflexivity |].
  destruct (Ascii.eqb c "'") eqn:Hquote.
  - apply Ascii.eqb_eq in Hquote; subst c. cbn. rewrite IH. reflexivity.
  - cbn. rewrite Hquote, IH. reflexivity.
Qed.

(** C4: the line of a directive is made by doubling the dollar signs of
    the key and of the value first and quoting for the shell, as one
    token, the text of the key, a blank, the equals sign, a blank and the
    value between two double quotes (the character of code 34) after;
    expanding the variables of this line and then unquoting it as the
    shell does gives that text of the original key and value back,
    whatever dollar signs they hold.  So the directive of CFLAGS and
    -O2 $X is written with $$X between single quotes. *)
Theorem conf_line_round_trip (k v : string) :
  conf_line (PyStr k, PyStr v)
  = Ok (shlex_quote
          (replace "$" "$$" k ++ " = "
           ++ String "034" (replace "$" "$$" v ++ String "034" EmptyString)))
  /\ (exists line expanded,
         conf_line (PyStr k, PyStr v) = Ok line
         /\ ninja_expand line = Some expanded
         /\ shell_unquote expanded
            = Some (k ++ " = " ++ String "034" (v ++ String "034" EmptyString)))
  /\ conf_line (PyStr "CFLAGS", PyStr "-O2 $X")
     = Ok ("'CFLAGS = " ++ String "034" ("-O2 $$X" ++ String "034" "'")).
Proof.
  split; [reflexivity |]. split; [| reflexivity].
  change (k ++ " = " ++ String "034" (v ++ String "034" EmptyString))
    with (assignment k v).
  exists (shlex_quote (assignment (replace "$" "$$" k) (replace "$" "$$" v))).
  exists ("'" ++ replace "'" quoted_squote (assignment k v) ++ "'").
  split; [reflexivity |]. split.
  - rewrite shlex_quote_assignment, assignment_escaped.
    change ("'" ++ ?x) with (String "'" x). cbn [ninja_expand Ascii.eqb Bool.eqb].
    rewrite (ninja_expand_quoted (assignment k v) "'" "'" eq_refl).
    reflexivity.
  - unfold shell_unquote. cbn. apply shell_unquote_single.
Qed.

(** ** The edges of one build *)

Section GenBuild.

Variable getcwd : string.
Variable create_stamp_name : list string -> string.
Variable py_str : PyValue -> string.

(** [gen_build] adds to what the generator holds the statements of its
    trace, which depend on the builder alone.  It changes no list but
    those it made itself ([local_conf], [deps]), so the builder is the
    same after the call. *)
Lemma gen_build_writes (self : YoctoBuilder) (w : Writer) :
  gen_build getcwd create_stamp_name py_str self w
  = (fst (gen_build_trace getcwd create_stamp_name py_str self),
     (w ++ snd (gen_build_trace getcwd create_stamp_name py_str self))%list).
Proof.
  unfold gen_build, gen_build_trace, bindG, pure,
    generator_build, generator_newline, retG.
  destruct (layers_of self) as [layers | e]; [| reflexivity].
  destruct (conf_of getcwd py_str self) as [conf_lines | e]; cbn [fst snd].
  2:{ rewrite <- app_assoc. reflexivity. }
  destruct (targets_of self) as [targets | e]; cbn [fst snd].
  2:{ repeat rewrite <- app_assoc. reflexivity. }
  destruct (deps_of self) as [deps | e]; cbn [fst snd].
  2:{ repeat rewrite <- app_assoc. reflexivity. }
  destruct (get_mandatory_str_value (conf self) "build_target") as [target | e];
    cbn [fst snd]; repeat rewrite <- app_assoc; reflexivity.
Qed.

(** The first statement of every trace is the edge of the first stage. *)
Lemma gen_build_trace_starts (self : YoctoBuilder) :
  exists rest,
    snd (gen_build_trace getcwd create_stamp_name py_str self) = env_edge self :: rest.
Proof.
  unfold gen_build_trace. trace_cases; eexists; reflexivity.
Qed.

(** When [gen_build] returns, every step of it gave a value and the trace
    is the whole of the statements. *)
Lemma gen_build_trace_ok (self : YoctoBuilder) (targets : list string) :
  fst (gen_build_trace getcwd create_stamp_name py_str self) = Ok targets ->
  exists layers conf_lines deps target,
    layers_of self = Ok layers
    /\ conf_of getcwd py_str self = Ok conf_lines
    /\ targets_of self = Ok targets
    /\ deps_of self = Ok deps
    /\ get_mandatory_str_value (conf self) "build_target" = Ok target
    /\ snd (gen_build_trace getcwd create_stamp_name py_str self)
       = [env_edge self; layers_edge create_stamp_name self layers;
          conf_edge create_stamp_name self conf_lines; Newline;
          alias_edge self; Newline;
          build_edge self targets deps (fst target)].
Proof.
  unfold gen_build_trace.
  destruct (layers_of self) as [layers | e]; [| discriminate].
  destruct (conf_of getcwd py_str self) as [conf_lines | e]; [| discriminate].
  destruct (targets_of self) as [targets' | e]; [| discriminate].
  destruct (deps_of self) as [deps | e]; [| discriminate].
  destruct (get_mandatory_str_value (conf self) "build_target") as [target | e];
    [| discriminate].
  cbn. intros H; inversion H; subst.
  exists layers, conf_lines, deps, target. repeat split; reflexivity.
Qed.

Lemma targets_of_joined (self : YoctoBuilder) (targets : list string) :
  targets_of self = Ok targets ->
  exists images,
    get_mandatory_sequence (conf self) "target_images" = Ok images
    /\ Forall2 (fun image target =>
                  exists t, node_value image = PyStr t
                            /\ target = os_path_join (yocto_dir self) [work_dir self; t])
         images targets.
Proof.
  unfold targets_of.
  destruct (get_mandatory_sequence (conf self) "target_images") as [images | e];
    cbn; [| discriminate].
  intros H. exists images. split; [reflexivity |].
  revert targets H. induction images as [| image images IH]; intros targets; cbn.
  - intros H; inversion H. constructor.
  - destruct (node_value image) as [t | |] eqn:Hvalue; cbn; try discriminate.
    destruct (comprehension _ images) as [ts | e]; cbn; [| discriminate].
    intros H; inversion H; subst. constructor.
    + exists t. split; [exact Hvalue | reflexivity].
    + apply IH. reflexivity.
Qed.

(** C1, as the code has it: when [gen_build] returns, it has declared
    five build edges, the four of the stages and, between the third and
    the fourth, the alias conf-name.  The stages are chained: the first
    depends on the source stamps, the second on the output of the first,
    the third on the output of the second, the alias on the output of the
    third, and the fourth on the additional dependencies followed by the
    output of the third.  What is returned is the output list of the
    fourth edge, the target images joined to the work directory. *)
Theorem gen_build_declares_chain
  (self : YoctoBuilder) (w w' : Writer) (targets : list string) :
  gen_build getcwd create_stamp_name py_str self w = (Ok targets, w') ->
  exists layers conf_lines extra target images e1 e2 e3 alias e4,
    w' = (w ++ [e1; e2; e3; Newline; alias; Newline; e4])%list
    /\ build_edges [e1; e2; e3; Newline; alias; Newline; e4] = [e1; e2; e3; alias; e4]
    /\ e1 = env_edge self
    /\ e2 = layers_edge create_stamp_name self layers
    /\ e3 = conf_edge create_stamp_name self conf_lines
    /\ alias = alias_edge self
    /\ e4 = build_edge self targets (extra ++ [local_conf_target self]) target
    /\ edge_inputs e1 = src_stamps self
    /\ edge_inputs e2 = edge_outputs e1
    /\ edge_inputs e3 = edge_outputs e2
    /\ edge_inputs alias = edge_outputs e3
    /\ edge_inputs e4 = (extra ++ edge_outputs e3)%list
    /\ additional_deps_of self = Ok extra
    /\ edge_outputs e4 = targets
    /\ get_mandatory_sequence (conf self) "target_images" = Ok images
    /\ Forall2 (fun image target =>
                  exists t, node_value image = PyStr t
                            /\ target = os_path_join (yocto_dir self) [work_dir self; t])
         images targets.
Proof.
  rewrite gen_build_writes. intros H. inversion H as [[Hfst Hsnd]].
  destruct (gen_build_trace_ok self targets Hfst)
    as (layers & conf_lines & deps & target & Hl & Hc & Ht & Hd & Hb & Htrace).
  rewrite Htrace.
  unfold deps_of in Hd.
  destruct (additional_deps_of self) as [extra | e] eqn:Hextra; [| discriminate].
  cbn in Hd. inversion Hd; subst deps.
  destruct (targets_of_joined self targets Ht) as (images & Himages & Hjoined).
  exists layers, conf_lines, extra, (fst target), images.
  do 5 eexists.
  split; [reflexivity |].
  repeat (split; [reflexivity |]).
  split; [exact Himages | exact Hjoined].
Qed.

(** C9: a second call of [gen_build] on the same builder returns what the
    first returned and writes the same statements again, whatever the
    generator held before. *)
Theorem gen_build_idempotent (self : YoctoBuilder) (w : Writer) :
  let first := gen_build getcwd create_stamp_name py_str self w in
  let second := gen_build getcwd create_stamp_name py_str self (snd first) in
  fst second = fst first
  /\ exists emitted,
       snd first = (w ++ emitted)%list
       /\ snd second = (snd first ++ emitted)%list.
Proof.
  cbn zeta. rewrite (gen_build_writes self w). cbn [fst snd].
  rewrite gen_build_writes. cbn [fst snd].
  split; [reflexivity |].
  exists (snd (gen_build_trace getcwd create_stamp_name py_str self)).
  split; reflexivity.
Qed.

Lemma get_mandatory_sequence_missing (node : Node) (key : string) :
  get_node node key = Ok None ->
  get_mandatory_sequence node key = Raise (MissingFieldError key (start_mark node)).
Proof.
  intros H. unfold get_mandatory_sequence, get_sequence_node. rewrite H. reflexivity.
Qed.

(** C3, as the code has it: [gen_build] writes each edge as soon as the
    stage is computed, and what is written stays written when a later
    step raises.  The edge of the first stage is written in every case;
    when the call returns, five build edges were written; and when
    [target_images] is missing while the layers and the conf entries are
    in order, the call raises the missing-field error that names
    [target_images], after the edges of the first three stages and the
    alias were written. *)
Theorem gen_build_writes_before_raising (self : YoctoBuilder) (w : Writer) :
  (exists rest,
      snd (gen_build getcwd create_stamp_name py_str self w)
      = (w ++ env_edge self :: rest)%list)
  /\ (forall targets,
         fst (gen_build getcwd create_stamp_name py_str self w) = Ok targets ->
         exists emitted,
           snd (gen_build getcwd create_stamp_name py_str self w) = (w ++ emitted)%list
           /\ length (build_edges emitted) = 5)
  /\ (forall layers conf_lines,
         layers_of self = Ok layers ->
         conf_of getcwd py_str self = Ok conf_lines ->
         get_node (conf self) "target_images" = Ok None ->
         gen_build getcwd create_stamp_name py_str self w
         = (Raise (MissingFieldError "target_images" (start_mark (conf self))),
            (w ++ [env_edge self; layers_edge create_stamp_name self layers;
                   conf_edge create_stamp_name self conf_lines; Newline;
                   alias_edge self; Newline])%list)).
Proof.
  rewrite gen_build_writes. cbn [fst snd]. split; [| split].
  - destruct (gen_build_trace_starts self) as [rest Hrest].
    exists rest. rewrite Hrest. reflexivity.
  - intros targets Hok.
    destruct (gen_build_trace_ok self targets Hok)
      as (layers & conf_lines & deps & target & _ & _ & _ & _ & _ & Htrace).
    eexists. split; [reflexivity |]. rewrite Htrace. reflexivity.
  - intros layers conf_lines Hl Hc Hmissing.
    unfold gen_build_trace, targets_of. rewrite Hl, Hc.
    rewrite (get_mandatory_sequence_missing _ _ Hmissing). reflexivity.
Qed.

Lemma layers_of_none (self : YoctoBuilder) :
  get_sequence_node (conf self) "layers" = Ok None -> layers_of self = Ok "".
Proof.
  intros H. unfold layers_of. rewrite H. reflexivity.
Qed.

Lemma comprehension_as_str (ids : list string) :
  comprehension as_str (map PyStr ids) = Ok ids.
Proof.
  induction ids as [| x ids IH]; cbn; [reflexivity |].
  rewrite IH. reflexivity.
Qed.

Lemma layers_of_some (self : YoctoBuilder) (nodes : list Node) (m : Mark)
  (ids : list string) :
  get_sequence_node (conf self) "layers" = Ok (Some (SequenceNode nodes m)) ->
  map node_value nodes = map PyStr ids ->
  layers_of self = Ok (str_join " " ids).
Proof.
  intros H Hids. unfold layers_of. rewrite H. cbn.
  rewrite Hids, comprehension_as_str. reflexivity.
Qed.

Lemma gen_build_layers_edge (self : YoctoBuilder) (w : Writer) (layers : string) :
  layers_of self = Ok layers ->
  exists rest,
    snd (gen_build getcwd create_stamp_name py_str self w)
    = (w ++ env_edge self :: layers_edge create_stamp_name self layers :: rest)%list.
Proof.
  intros Hl. rewrite gen_build_writes. cbn [fst snd].
  unfold gen_build_trace. rewrite Hl. trace_cases; eexists; reflexivity.
Qed.

(** C7: with no [layers] node in the configuration, the edge of the
    second stage is declared all the same, after the edge of the first
    stage and whatever comes next, and its variable [layers] is the empty
    string; with a [layers] node, the variable is the identifiers of the
    layers in the order of the node, with one blank between two. *)
Theorem layers_edge_never_skipped (self : YoctoBuilder) (w : Writer) :
  (get_sequence_node (conf self) "layers" = Ok None ->
   exists rest,
     snd (gen_build getcwd create_stamp_name py_str self w)
     = (w ++ env_edge self
          :: Build [layers_stamp create_stamp_name self] "yocto_add_layers"
               [env_target self]
               [("yocto_dir", yocto_dir self); ("work_dir", work_dir self);
                ("layers", "")]
          :: rest)%list)
  /\ (forall nodes m ids,
         get_sequence_node (conf self) "layers" = Ok (Some (SequenceNode nodes m)) ->
         map node_value nodes = map PyStr ids ->
         exists rest,
           snd (gen_build getcwd create_stamp_name py_str self w)
           = (w ++ env_edge self
                :: Build [layers_stamp create_stamp_name self] "yocto_add_layers"
                     [env_target self]
                     [("yocto_dir", yocto_dir self); ("work_dir", work_dir self);
                      ("layers", str_join " " ids)]
                :: rest)%list).
Proof.
  split.
  - intros Hnone.
    apply (gen_build_layers_edge self w "" (layers_of_none self Hnone)).
  - intros nodes m ids Hsome Hids.
    apply (gen_build_layers_edge self w (str_join " " ids)
             (layers_of_some self nodes m ids Hsome Hids)).
Qed.

(** C6, as the code has it: the markers of the stages are functions of
    the directory of the build and of its work directory, and the name of
    the instance is no part of them.  Two instances of the same
    directories that [gen_build] accepts get the same three markers,
    whatever their names are. *)
Theorem stage_markers_of_directories
  (self other : YoctoBuilder) (targets targets' : list string) (w w' : Writer) :
  yocto_dir self = yocto_dir other ->
  work_dir self = work_dir other ->
  gen_build getcwd create_stamp_name py_str self [] = (Ok targets, w) ->
  gen_build getcwd create_stamp_name py_str other [] = (Ok targets', w') ->
  stage_markers w = stage_markers w'
  /\ stage_markers w
     = [[os_path_join (yocto_dir self) [work_dir self; "conf"; "local.conf"]];
        [create_stamp_name [yocto_dir self; work_dir self; "yocto"; "layers"]];
        [os_path_join (yocto_dir self) [work_dir self; "conf"; "moulin.conf"]]].
Proof.
  intros Hdir Hwork Hself Hother.
  rewrite gen_build_writes in Hself, Hother.
  inversion Hself as [[Hfst Hsnd]]. inversion Hother as [[Hfst' Hsnd']].
  destruct (gen_build_trace_ok self targets Hfst)
    as (l & c & d & t & _ & _ & _ & _ & _ & Htrace).
  destruct (gen_build_trace_ok other targets' Hfst')
    as (l' & c' & d' & t' & _ & _ & _ & _ & _ & Htrace').
  cbn [app]. rewrite Htrace, Htrace'.
  unfold stage_markers. cbn.
  unfold env_target, layers_stamp, local_conf_target.
  rewrite <- Hdir, <- Hwork. split; reflexivity.
Qed.

End GenBuild.

(** ** External sources *)

Lemma startswith_sep_inv (s : string) :
  startswith sep s = true -> exists rest, s = String "/" rest.
Proof.
  unfold startswith, sep. destruct s as [| c s]; [discriminate |].
  unfold prefix. destruct (ascii_dec "/" c) as [<- | _]; [| discriminate].
  intros _. exists s. reflexivity.
Qed.

Lemma startswith_sep_cons (rest : string) : startswith sep (String "/" rest) = true.
Proof.
  unfold startswith, sep, prefix.
  destruct (ascii_dec "/" "/") as [_ | H]; [destruct rest; reflexivity | contradiction].
Qed.

Lemma normpath_absolute (path : string) :
  startswith sep path = true -> startswith sep (normpath path) = true.
Proof.
  intros H. destruct (startswith_sep_inv path H) as [rest ->].
  unfold normpath. rewrite H.
  change (String "/" rest =? "") with false. cbv iota.
  destruct (startswith "//" (String "/" rest) && negb (startswith "///" (String "/" rest)));
    apply startswith_sep_cons.
Qed.

Lemma abspath_absolute (cwd path : string) :
  startswith sep cwd = true -> startswith sep (abspath cwd path) = true.
Proof.
  intros Hcwd. unfold abspath.
  destruct (startswith sep path) eqn:Hpath.
  - apply normpath_absolute, Hpath.
  - apply normpath_absolute.
    destruct (startswith_sep_inv cwd Hcwd) as [rest ->].
    unfold os_path_join, join_step. cbn [fold_left]. rewrite Hpath.
    destruct ((String "/" rest =? "") || endswith_char "/" (String "/" rest));
      apply startswith_sep_cons.
Qed.

Lemma comprehension_map {A B C} (f : B -> Result C) (g : A -> B) (l : list A) :
  comprehension f (map g l) = comprehension (fun x => f (g x)) l.
Proof.
  induction l as [| x l IH]; cbn; [reflexivity | now rewrite IH].
Qed.

Lemma as_str_scalar_string (x : Node) (s : string) :
  as_str (node_value x) = Ok s <-> scalar_string x = Some s.
Proof.
  destruct x; cbn; split; intros H; try discriminate; inversion H; reflexivity.
Qed.

Section ExternalSrc.

Variable getcwd : string.
Variable py_str : PyValue -> string.

(** The entry an item with a path adds. *)
Lemma external_src_entry_path (item : Node * Node) (path : string) :
  external_src_path (snd item) = Some path ->
  external_src_entry getcwd py_str item
  = Ok (PyStr ("EXTERNALSRC_pn-" ++ format_value py_str (node_value (fst item))),
        PyStr (abspath getcwd path)).
Proof.
  destruct item as [key_node val_node]. cbn [fst snd].
  unfold external_src_entry.
  destruct val_node as [s mk | segments mk | pairs mk]; cbn; try discriminate.
  - intros H; inversion H; reflexivity.
  - unfold os_path_join_values. rewrite comprehension_map.
    destruct (all_defined (map scalar_string segments)) as [strs |] eqn:Hall;
      [| discriminate].
    apply (comprehension_all_defined _ scalar_string as_str_scalar_string) in Hall.
    rewrite Hall. cbn.
    destruct strs as [| a p]; [discriminate |].
    intros H; inversion H; reflexivity.
Qed.

Lemma external_src_loop_overrides (items : list (Node * Node)) :
  forallb has_path items = true ->
  forall ret,
  exists overrides,
    external_src_loop getcwd py_str items ret = Ok (ret ++ overrides)%list
    /\ Forall2
         (fun item override =>
            exists path,
              external_src_path (snd item) = Some path
              /\ override
                 = (PyStr ("EXTERNALSRC_pn-" ++ format_value py_str (node_value (fst item))),
                    PyStr (abspath getcwd path)))
         items overrides.
Proof.
  induction items as [| item items IH]; cbn [external_src_loop forallb]; intros H ret.
  - exists []. rewrite app_nil_r. split; [reflexivity | constructor].
  - apply andb_prop in H. destruct H as [Hitem Hrest].
    unfold has_path in Hitem.
    destruct (external_src_path (snd item)) as [path |] eqn:Hpath; [| discriminate].
    rewrite (external_src_entry_path item path Hpath). cbn [bindR].
    destruct (IH Hrest
                (ret ++ [(PyStr ("EXTERNALSRC_pn-"
                                 ++ format_value py_str (node_value (fst item))),
                          PyStr (abspath getcwd path))])%list)
      as (overrides & Hloop & Hall).
    rewrite <- app_assoc in Hloop.
    eexists. split; [exact Hloop |].
    constructor; [| exact Hall]. exists path. split; [exact Hpath | reflexivity].
Qed.

(** C5: with an [external_src] mapping whose values give paths, one
    entry is made per item of the mapping, in the order of the mapping:
    its key is EXTERNALSRC_pn- followed by the identifier and its value is
    the absolute path of the plain path, or of the joined segments, that
    the item gives.  In [local_conf] these entries follow all the entries
    that the conf node declares. *)
Theorem external_src_overrides_follow_declared
  (self : YoctoBuilder) (items : list (Node * Node)) (m : Mark)
  (declared : list DirectivePair) :
  startswith sep getcwd = true ->
  get_mapping_node (conf self) "external_src" = Ok (Some (MappingNode items m)) ->
  forallb has_path items = true ->
  declared_conf_of self = Ok declared ->
  exists overrides,
    _get_external_src getcwd py_str self = Ok overrides
    /\ local_conf_of getcwd py_str self = Ok (declared ++ overrides)%list
    /\ Forall2
         (fun item override =>
            exists path,
              external_src_path (snd item) = Some path
              /\ override
                 = (PyStr ("EXTERNALSRC_pn-" ++ format_value py_str (node_value (fst item))),
                    PyStr (abspath getcwd path))
              /\ startswith sep (abspath getcwd path) = true)
         items overrides.
Proof.
  intros Hcwd Hnode Hpaths Hdeclared.
  destruct (external_src_loop_overrides items Hpaths []) as (overrides & Hloop & Hall).
  exists overrides.
  assert (Hext : _get_external_src getcwd py_str self = Ok overrides).
  { unfold _get_external_src. rewrite Hnode. cbn. exact Hloop. }
  split; [exact Hext |]. split.
  - unfold local_conf_of. rewrite Hdeclared, Hext. reflexivity.
  - clear Hloop Hext Hnode Hpaths.
    induction Hall as [| item override items overrides Hitem _ IH].
    + constructor.
    + constructor; [| exact IH].
      destruct Hitem as (path & Hpath & Hoverride).
      exists path. repeat split; try assumption.
      apply abspath_absolute, Hcwd.
Qed.

End ExternalSrc.

(** ** The scenarios of the specification *)

(** Scenario A returns and has declared five build edges: the claim of
    four does not hold of it. *)
Lemma scenario_A_declares_five_edges :
  gen_build "/home/user" example_stamp_name example_py_str scenario_A []
  = (Ok ["base/build/image.wic"], scenario_A_statements)
  /\ length (build_edges scenario_A_statements) = 5
  /\ map edge_rule (build_edges scenario_A_statements)
     = ["yocto_init_env"; "yocto_add_layers"; "yocto_update_conf"; "phony";
        "yocto_build"].
Proof.
  repeat split.
Qed.

(** The chain of scenario A. *)
Lemma gen_build_declares_chain_witness :
  gen_build "/home/user" example_stamp_name example_py_str scenario_A []
  = (Ok ["base/build/image.wic"], scenario_A_statements)
  /\ exists e1 e2 e3 alias e4,
       scenario_A_statements = [e1; e2; e3; Newline; alias; Newline; e4]
       /\ edge_inputs e1 = ["src.stamp"]
       /\ edge_inputs e2 = edge_outputs e1
       /\ edge_inputs e3 = edge_outputs e2
       /\ edge_inputs alias = edge_outputs e3
       /\ edge_outputs e4 = ["base/build/image.wic"].
Proof.
  split; [reflexivity |].
  destruct (gen_build_declares_chain "/home/user" example_stamp_name example_py_str
              scenario_A [] scenario_A_statements ["base/build/image.wic"] eq_refl)
    as (layers & conf_lines & extra & target & images & e1 & e2 & e3 & alias & e4
        & Hw & _ & _ & _ & _ & _ & _ & Hin1 & Hin2 & Hin3 & Hin4 & _ & _ & Hout & _).
  exists e1, e2, e3, alias, e4.
  repeat split; assumption.
Defined.

(** Scenario D raises for the missing [target_images] once four build
    edges were written: not before any edge. *)
Lemma scenario_D_raises_after_four_edges :
  gen_build "/home/user" example_stamp_name example_py_str scenario_D []
  = (Raise (MissingFieldError "target_images" m0),
     firstn 6 scenario_A_statements)
  /\ length (build_edges (firstn 6 scenario_A_statements)) = 4.
Proof.
  split; reflexivity.
Qed.

Lemma gen_build_writes_before_raising_witness :
  get_node (conf scenario_D) "target_images" = Ok None
  /\ gen_build "/home/user" example_stamp_name example_py_str scenario_D
       [Newline]
     = (Raise (MissingFieldError "target_images" m0),
        Newline :: firstn 6 scenario_A_statements).
Proof.
  split; [reflexivity |].
  exact (proj2 (proj2 (gen_build_writes_before_raising "/home/user"
                         example_stamp_name example_py_str scenario_D [Newline]))
           "" "" eq_refl eq_refl eq_refl).
Defined.

(** Two instances of different names and the same directories have the
    same markers, whatever [create_stamp_name] is. *)
Lemma markers_collide_across_instances :
  name scenario_A <> name scenario_A_twin
  /\ (forall create_stamp_name,
         layers_stamp create_stamp_name scenario_A
         = layers_stamp create_stamp_name scenario_A_twin)
  /\ stage_markers
       (snd (gen_build "/home/user" example_stamp_name example_py_str scenario_A []))
     = stage_markers
         (snd (gen_build "/home/user" example_stamp_name example_py_str
                 scenario_A_twin []))
  /\ fst (gen_build "/home/user" example_stamp_name example_py_str scenario_A_twin [])
     = Ok ["base/build/image.wic"].
Proof.
  repeat split. discriminate.
Qed.

Lemma stage_markers_of_directories_witness :
  yocto_dir scenario_A = yocto_dir scenario_A_twin
  /\ work_dir scenario_A = work_dir scenario_A_twin
  /\ stage_markers scenario_A_statements
     = [["base/build/conf/local.conf"]; [".stamps/base-build-yocto-layers"];
        ["base/build/conf/moulin.conf"]].
Proof.
  split; [reflexivity |]. split; [reflexivity |].
  exact (proj2 (stage_markers_of_directories "/home/user" example_stamp_name
                  example_py_str scenario_A scenario_A_twin
                  ["base/build/image.wic"] ["base/build/image.wic"]
                  scenario_A_statements
                  (snd (gen_build "/home/user" example_stamp_name example_py_str
                          scenario_A_twin []))
                  eq_refl eq_refl eq_refl eq_refl)).
Defined.

Lemma layers_edge_never_skipped_witness :
  get_sequence_node (conf scenario_A) "layers" = Ok None
  /\ (exists rest,
         scenario_A_statements
         = Build ["base/build/conf/local.conf"] "yocto_init_env" ["src.stamp"]
             [("yocto_dir", "base"); ("work_dir", "build")]
           :: Build [".stamps/base-build-yocto-layers"] "yocto_add_layers"
                ["base/build/conf/local.conf"]
                [("yocto_dir", "base"); ("work_dir", "build"); ("layers", "")]
           :: rest)
  /\ (exists rest,
         snd (gen_build "/home/user" example_stamp_name example_py_str
                scenario_layers [])
         = Build ["base/build/conf/local.conf"] "yocto_init_env" ["src.stamp"]
             [("yocto_dir", "base"); ("work_dir", "build")]
           :: Build [".stamps/base-build-yocto-layers"] "yocto_add_layers"
                ["base/build/conf/local.conf"]
                [("yocto_dir", "base"); ("work_dir", "build");
                 ("layers", "../meta-a ../meta-b")]
           :: rest).
Proof.
  split; [reflexivity |]. split.
  - exact (proj1 (layers_edge_never_skipped "/home/user" example_stamp_name
                    example_py_str scenario_A []) eq_refl).
  - exact (proj2 (layers_edge_never_skipped "/home/user" example_stamp_name
                    example_py_str scenario_layers [])
             [scalar "../meta-a"; scalar "../meta-b"] m0 ["../meta-a"; "../meta-b"]
             eq_refl eq_refl).
Defined.

(** Scenario C: the entry of mylib comes after FOO. *)
Lemma external_src_overrides_follow_declared_witness :
  startswith sep "/home/user" = true
  /\ forallb has_path scenario_C_items = true
  /\ exists overrides,
       _get_external_src "/home/user" example_py_str scenario_C = Ok overrides
       /\ local_conf_of "/home/user" example_py_str scenario_C
          = Ok ((PyStr "FOO", PyStr "1") :: overrides)
       /\ _get_external_src "/home/user" example_py_str scenario_C
          = Ok [(PyStr "EXTERNALSRC_pn-mylib", PyStr "/home/user/srcs/mylib")].
Proof.
  split; [reflexivity |]. split; [reflexivity |].
  destruct (external_src_overrides_follow_declared "/home/user" example_py_str
              scenario_C scenario_C_items m0 [(PyStr "FOO", PyStr "1")]
              eq_refl eq_refl eq_refl eq_refl)
    as (overrides & Hext & Hconf & _).
  exists overrides. split; [exact Hext |]. split; [exact Hconf | reflexivity].
Defined.

Lemma flatten_partial_on_short_entries_witness :
  forallb well_formed_entry (sequence_value scenario_B_conf) = true
  /\ (exists pairs, _flatten_yocto_conf scenario_B_conf = Ok pairs)
  /\ _flatten_yocto_conf (seq [seq [seq [scalar "BAR"]]]) = Raise IndexError.
Proof.
  split; [reflexivity |]. split.
  - exact (proj1 (proj2 (proj2 (proj2 flatten_partial_on_short_entries)))
             (sequence_value scenario_B_conf) m0 eq_refl).
  - exact (proj1 (proj2 (proj2 flatten_partial_on_short_entries))
             [] [] [] [] [] [scalar "BAR"] m0 m0 m0 eq_refl eq_refl (le_n 2)).
Defined.

Lemma flatten_emits_leaves_in_encounter_order_witness :
  leaves_in_encounter_order (sequence_value scenario_B_conf)
  = Some [(PyStr "FOO", PyStr "1"); (PyStr "BAR", PyStr "2"); (PyStr "BAZ", PyStr "3")]
  /\ list_sum (map leaf_count (sequence_value scenario_B_conf)) = 3.
Proof.
  split.
  - exact (proj1 (proj1 flatten_emits_leaves_in_encounter_order
                    (sequence_value scenario_B_conf) m0 _) eq_refl).
  - exact (eq_sym (proj1 (proj2 flatten_emits_leaves_in_encounter_order)
                     (sequence_value scenario_B_conf) m0 _ eq_refl)).
Defined.

(** * Further properties of the code *)

(** ** When flattening returns and what it raises *)

Lemma comprehension_member_pair_ok (members : list Node) :
  (exists pairs, comprehension member_pair members = Ok pairs)
  <-> forallb has_two_elements members = true.
Proof.
  split; [| apply comprehension_member_pair_total].
  induction members as [| x members IH]; cbn; [reflexivity |].
  intros [pairs H].
  destruct (member_pair x) as [p | e] eqn:Hx; cbn in H; [| discriminate].
  destruct (comprehension member_pair members) as [ps | e]; cbn in H; [| discriminate].
  rewrite IH by (eexists; reflexivity). rewrite andb_true_r.
  destruct x as [s mk | [| a [| b v]] mk | v mk]; cbn in Hx; try discriminate.
  - destruct s; discriminate.
  - reflexivity.
  - destruct v; discriminate.
Qed.

Lemma flatten_entry_ok (entry : Node) :
  (exists pairs, flatten_entry entry = Ok pairs) <-> flattenable entry = true.
Proof.
  destruct entry as [s mk | [| first rest] mk | v mk]; cbn;
    try (split; [intros [pairs H]; discriminate | discriminate]).
  destruct (is_SequenceNode first).
  - apply (comprehension_member_pair_ok (first :: rest)).
  - destruct rest as [| second rest]; cbn.
    + split; [intros [pairs H]; discriminate | discriminate].
    + split; [reflexivity | intros _; eexists; reflexivity].
Qed.

Lemma flatten_loop_ok (entries : list Node) :
  forall result,
    (exists pairs, flatten_loop entries result = Ok pairs)
    <-> forallb flattenable entries = true.
Proof.
  induction entries as [| entry entries IH]; intros result; cbn.
  - split; [reflexivity | intros _; eexists; reflexivity].
  - destruct (flatten_entry entry) as [r | e] eqn:He; cbn.
    + rewrite (proj1 (flatten_entry_ok entry)) by (eexists; exact He).
      apply IH.
    + split; [intros [pairs H]; discriminate |].
      intros H. apply andb_prop in H. destruct H as [H _].
      apply flatten_entry_ok in H. destruct H as [pairs H]. congruence.
Qed.

(** X1: [_flatten_yocto_conf] returns a list exactly when every entry is
    a sequence that is either a group whose members are all sequences of
    at least two elements, or a pair of at least two elements whose first
    is not a sequence. *)
Theorem flatten_returns_iff_flattenable (entries : list Node) (m : Mark) :
  (exists pairs, _flatten_yocto_conf (SequenceNode entries m) = Ok pairs)
  <-> forallb flattenable entries = true.
Proof.
  cbn. apply flatten_loop_ok.
Qed.

Lemma comprehension_member_pair_raises (members : list Node) (e : Exception) :
  comprehension member_pair members = Raise e ->
  e = IndexError \/ e = AttributeError.
Proof.
  induction members as [| x members IH]; cbn; [discriminate |].
  destruct (member_pair x) as [p | ex] eqn:Hx; cbn.
  - destruct (comprehension member_pair members) as [ps | e']; cbn; [discriminate |].
    intros H; inversion H; subst. apply IH. reflexivity.
  - intros H; inversion H; subst.
    destruct x as [s mk | [| a [| b v]] mk | v mk]; cbn in Hx; try discriminate;
      try (inversion Hx; auto; fail).
    + destruct s; inversion Hx; auto.
    + destruct v; inversion Hx; auto.
Qed.

Lemma flatten_entry_raises (entry : Node) (e : Exception) :
  flatten_entry entry = Raise e ->
  e = IndexError \/ e = AttributeError
  \/ (is_SequenceNode entry = false
      /\ e = YAMLProcessingError expected_array (start_mark entry)).
Proof.
  destruct entry as [s mk | [| first rest] mk | v mk]; cbn;
    try (intros H; inversion H; auto; fail).
  destruct (is_SequenceNode first).
  - intros H. destruct (comprehension_member_pair_raises (first :: rest) e H); auto.
  - destruct rest; cbn; intros H; inversion H; auto.
Qed.

(** X2: [_flatten_yocto_conf] raises nothing but IndexError,
    AttributeError and the processing error of a malformed conf node, and
    the mark of this error is the start mark of an entry of the node that
    is not a sequence. *)
Theorem flatten_raises_only (entries : list Node) (m : Mark) (e : Exception) :
  _flatten_yocto_conf (SequenceNode entries m) = Raise e ->
  e = IndexError \/ e = AttributeError
  \/ exists entry,
       In entry entries /\ is_SequenceNode entry = false
       /\ e = YAMLProcessingError expected_array (start_mark entry).
Proof.
  cbn. generalize (@nil DirectivePair).
  induction entries as [| entry entries IH]; intros result; cbn; [discriminate |].
  destruct (flatten_entry entry) as [r | ex] eqn:He; cbn.
  - intros H. destruct (IH _ H) as [Hi | [Ha | (x & Hin & Hseq & Hx)]]; auto.
    right; right. exists x. auto.
  - intros H; inversion H; subst.
    destruct (flatten_entry_raises entry e He) as [Hi | [Ha | [Hseq Hx]]]; auto.
    right; right. exists entry. auto.
Qed.

Lemma flatten_raises_only_witness :
  _flatten_yocto_conf
    (seq [seq [scalar "FOO"; scalar "1"]; ScalarNode "BAR" (mkMark 3 2)])
  = Raise (YAMLProcessingError expected_array (mkMark 3 2))
  /\ (YAMLProcessingError expected_array (mkMark 3 2) = IndexError
      \/ YAMLProcessingError expected_array (mkMark 3 2) = AttributeError
      \/ exists entry,
           In entry [seq [scalar "FOO"; scalar "1"]; ScalarNode "BAR" (mkMark 3 2)]
           /\ is_SequenceNode entry = false
           /\ YAMLProcessingError expected_array (mkMark 3 2)
              = YAMLProcessingError expected_array (start_mark entry)).
Proof.
  split; [reflexivity |].
  exact (flatten_raises_only
           [seq [scalar "FOO"; scalar "1"]; ScalarNode "BAR" (mkMark 3 2)] m0
           (YAMLProcessingError expected_array (mkMark 3 2)) eq_refl).
Defined.

(** ** How flattening composes *)

Lemma flatten_loop_app_bind (a b : list Node) :
  forall result,
    flatten_loop (a ++ b) result
    = (done <- flatten_loop a result ;; flatten_loop b done).
Proof.
  induction a as [| entry a IH]; intros result; cbn; [reflexivity |].
  destruct (flatten_entry entry); cbn; [apply IH | reflexivity].
Qed.

Lemma flatten_loop_result (entries : list Node) (result l : list DirectivePair) :
  flatten_loop entries result = Ok l <->
  exists r, flatten_loop entries [] = Ok r /\ l = (result ++ r)%list.
Proof.
  rewrite flatten_loop_leaves. split.
  - intros (r & Hr & ->). exists r. split; [| reflexivity].
    apply flatten_loop_leaves. exists r. split; [exact Hr | reflexivity].
  - intros (r & Hr & ->). apply flatten_loop_leaves in Hr.
    destruct Hr as (r' & Hr' & ->). exists r'. split; [exact Hr' | reflexivity].
Qed.

(** X3: flattening the entries of two lists put end to end gives the
    pairs of the first followed by the pairs of the second, and returns
    exactly when the flattening of each returns. *)
Theorem flatten_of_concatenation
  (a b : list Node) (m : Mark) (pairs : list DirectivePair) :
  _flatten_yocto_conf (SequenceNode (a ++ b) m) = Ok pairs <->
  exists pairs_a pairs_b,
    _flatten_yocto_conf (SequenceNode a m) = Ok pairs_a
    /\ _flatten_yocto_conf (SequenceNode b m) = Ok pairs_b
    /\ pairs = (pairs_a ++ pairs_b)%list.
Proof.
  cbn. rewrite flatten_loop_app_bind. split.
  - destruct (flatten_loop a []) as [pa | e]; cbn; [| discriminate].
    intros H. apply flatten_loop_result in H. destruct H as (pb & Hb & ->).
    exists pa, pb. repeat split. exact Hb.
  - intros (pa & pb & Ha & Hb & ->). rewrite Ha. cbn.
    apply flatten_loop_result. exists pb. split; [exact Hb | reflexivity].
Qed.

Lemma pair_entry_flattens (x : Node) :
  is_pair_entry x = true ->
  exists p, member_pair x = Ok p /\ flatten_entry x = Ok [p].
Proof.
  destruct x as [s mk | [| first [| second v]] mk | v mk]; cbn; try discriminate.
  intros H. apply negb_true_iff in H. rewrite H.
  eexists. split; reflexivity.
Qed.

Lemma pair_entries_flatten (members : list Node) :
  forallb is_pair_entry members = true ->
  exists pairs,
    comprehension member_pair members = Ok pairs
    /\ forall result, flatten_loop members result = Ok (result ++ pairs)%list.
Proof.
  induction members as [| x members IH]; cbn; intros H.
  - exists []. split; [reflexivity |]. intros result. now rewrite app_nil_r.
  - apply andb_prop in H. destruct H as [Hx Hrest].
    destruct (pair_entry_flattens x Hx) as (p & Hmember & Hentry).
    destruct (IH Hrest) as (pairs & Hcomp & Hloop).
    exists (p :: pairs). rewrite Hmember, Hcomp, Hentry. cbn.
    split; [reflexivity |].
    intros result. rewrite Hloop, <- app_assoc. reflexivity.
Qed.

(** X4: a group of pairs is flattened as its pairs listed one by one in
    its place: the inner list is moved up.  The result of flattening is
    the same, an exception of another entry included. *)
Theorem flatten_moves_group_up
  (prefix members rest : list Node) (m m' : Mark) :
  members <> [] ->
  forallb is_pair_entry members = true ->
  _flatten_yocto_conf (SequenceNode (prefix ++ SequenceNode members m' :: rest) m)
  = _flatten_yocto_conf (SequenceNode (prefix ++ members ++ rest) m).
Proof.
  intros Hne Hpairs. cbn.
  rewrite !flatten_loop_app_bind.
  destruct (flatten_loop prefix []) as [done | e]; cbn; [| reflexivity].
  rewrite flatten_loop_app_bind.
  destruct (pair_entries_flatten members Hpairs) as (pairs & Hcomp & Hloop).
  rewrite Hloop. cbn.
  destruct members as [| first members']; [contradiction |].
  cbn in Hpairs. apply andb_prop in Hpairs. destruct Hpairs as [Hfirst _].
  assert (Hseq : is_SequenceNode first = true).
  { destruct first as [s mk | v mk | v mk]; try discriminate. reflexivity. }
  cbn [index nth_error bindR]. rewrite Hseq, Hcomp. reflexivity.
Qed.

Lemma flatten_moves_group_up_witness :
  forallb is_pair_entry [seq [scalar "BAR"; scalar "2"]; seq [scalar "BAZ"; scalar "3"]]
  = true
  /\ _flatten_yocto_conf scenario_B_conf
     = _flatten_yocto_conf
         (seq [seq [scalar "FOO"; scalar "1"]; seq [scalar "BAR"; scalar "2"];
               seq [scalar "BAZ"; scalar "3"]]).
Proof.
  split; [reflexivity |].
  apply (flatten_moves_group_up
           [seq [scalar "FOO"; scalar "1"]]
           [seq [scalar "BAR"; scalar "2"]; seq [scalar "BAZ"; scalar "3"]]
           [] m0 m0).
  - discriminate.
  - reflexivity.
Defined.

(** ** Rules and edges *)

Section RulesAndEdges.

Variable getcwd : string.
Variable create_stamp_name : list string -> string.
Variable py_str : PyValue -> string.

(** X5: whatever the builder and however [gen_build] ends, every build
    edge it has written is an edge of the built-in rule phony or of a rule
    that [gen_build_rules] declares, and it binds every variable that the
    command and the description of its rule refer to, the variable out of
    the build tool apart. *)
Theorem edges_bind_variables_of_declared_rules
  (self : YoctoBuilder) (edge : Statement) :
  In edge (snd (gen_build getcwd create_stamp_name py_str self [])) ->
  edge = Newline
  \/ edge_rule edge = "phony"
  \/ exists command description pool restat,
       In (RuleDecl (edge_rule edge) command description pool restat)
          (gen_build_rules [])
       /\ forall v, In v (var_refs command ++ var_refs description) ->
                    v = "out" \/ In v (map fst (edge_variables edge)).
Proof.
  rewrite gen_build_writes. cbn [snd app].
  unfold gen_build_trace. trace_cases; cbn [snd app In]; intros Hin;
    repeat (destruct Hin as [<- | Hin]); try contradiction;
    try (left; reflexivity); try (right; left; reflexivity);
    right; right; do 4 eexists;
    (split;
     [ unfold gen_build_rules; cbn; tauto
     | intros v Hv; vm_compute in Hv;
       repeat (destruct Hv as [<- | Hv]); try contradiction; cbn; tauto ]).
Qed.

End RulesAndEdges.

Lemma edges_bind_variables_of_declared_rules_witness :
  In (Build ["base/build/image.wic"] "yocto_build" ["base/build/conf/moulin.conf"]
        [("yocto_dir", "base"); ("work_dir", "build");
         ("target", "core-image-minimal"); ("name", "a")])
     scenario_A_statements
  /\ exists command description pool restat,
       In (RuleDecl "yocto_build" command description pool restat)
          (gen_build_rules [])
       /\ forall v, In v (var_refs command ++ var_refs description) ->
                    v = "out"
                    \/ In v ["yocto_dir"; "work_dir"; "target"; "name"].
Proof.
  assert (Hin : In (Build ["base/build/image.wic"] "yocto_build"
                      ["base/build/conf/moulin.conf"]
                      [("yocto_dir", "base"); ("work_dir", "build");
                       ("target", "core-image-minimal"); ("name", "a")])
                   scenario_A_statements).
  { cbn. tauto. }
  split; [exact Hin |].
  destruct (edges_bind_variables_of_declared_rules "/home/user" example_stamp_name
              example_py_str scenario_A _ Hin) as [H | [H | H]].
  - discriminate H.
  - discriminate H.
  - exact H.
Defined.

(** ** Where [gen_build] can raise *)

Lemma conf_line_string_pair (kv : DirectivePair) :
  (exists line, conf_line kv = Ok line) <-> is_string_pair kv = true.
Proof.
  destruct kv as [[k | l | l] [v | l' | l']]; cbn;
    split; try discriminate; try (intros [line H]; discriminate);
    intros _; eexists; reflexivity.
Qed.

Lemma conf_line_raises (kv : DirectivePair) (e : Exception) :
  conf_line kv = Raise e -> e = AttributeError.
Proof.
  destruct kv as [[k | l | l] [v | l' | l']]; cbn; intros H; inversion H; reflexivity.
Qed.

Lemma conf_lines_string_pairs (local_conf : list DirectivePair) :
  (exists lines, comprehension conf_line local_conf = Ok lines)
  <-> forallb is_string_pair local_conf = true.
Proof.
  induction local_conf as [| kv local_conf IH]; cbn.
  - split; [reflexivity | intros _; eexists; reflexivity].
  - destruct (conf_line kv) as [line | e] eqn:Hline; cbn.
    + rewrite (proj1 (conf_line_string_pair kv)) by (eexists; exact Hline).
      cbn. rewrite <- IH.
      destruct (comprehension conf_line local_conf) as [lines | e]; cbn;
        split; intros [x H]; try discriminate; eexists; reflexivity.
    + split; [intros [x H]; discriminate |].
      intros H. apply andb_prop in H. destruct H as [H _].
      apply conf_line_string_pair in H. destruct H as [line H]. congruence.
Qed.

Lemma conf_lines_raise (local_conf : list DirectivePair) (e : Exception) :
  comprehension conf_line local_conf = Raise e -> e = AttributeError.
Proof.
  induction local_conf as [| kv local_conf IH]; cbn; [discriminate |].
  destruct (conf_line kv) as [line | e'] eqn:Hline; cbn.
  - destruct (comprehension conf_line local_conf) as [lines | e']; cbn;
      [discriminate |].
    intros H; inversion H; subst. apply IH. reflexivity.
  - intros H; inversion H; subst. apply (conf_line_raises kv e Hline).
Qed.

Section Failures.

Variable getcwd : string.
Variable create_stamp_name : list string -> string.
Variable py_str : PyValue -> string.

(** X6: when [gen_build] raises, it has written the edge of the first
    stage alone if the layers could not be computed, the edges of the
    first two stages if the conf lines could not, and else the edges of
    the first three stages with the alias: one, two or four build edges,
    and never the edge of the fourth stage. *)
Theorem gen_build_raises_after
  (self : YoctoBuilder) (w w' : Writer) (e : Exception) :
  gen_build getcwd create_stamp_name py_str self w = (Raise e, w') ->
  exists emitted,
    w' = (w ++ emitted)%list
    /\ (length (build_edges emitted) = 1
        \/ length (build_edges emitted) = 2
        \/ length (build_edges emitted) = 4)
    /\ ((layers_of self = Raise e /\ emitted = [env_edge self])
        \/ (exists layers,
               layers_of self = Ok layers
               /\ conf_of getcwd py_str self = Raise e
               /\ emitted = [env_edge self; layers_edge create_stamp_name self layers])
        \/ (exists layers conf_lines,
               layers_of self = Ok layers
               /\ conf_of getcwd py_str self = Ok conf_lines
               /\ (targets_of self = Raise e
                   \/ deps_of self = Raise e
                   \/ get_mandatory_str_value (conf self) "build_target" = Raise e)
               /\ emitted
                  = [env_edge self; layers_edge create_stamp_name self layers;
                     conf_edge create_stamp_name self conf_lines; Newline;
                     alias_edge self; Newline])).
Proof.
  rewrite gen_build_writes. unfold gen_build_trace.
  destruct (layers_of self) as [layers | e1]; cbn [fst snd].
  2:{ intros H; inversion H; subst. eexists. split; [reflexivity |].
      split; [left; reflexivity | left; split; reflexivity]. }
  destruct (conf_of getcwd py_str self) as [conf_lines | e2]; cbn [fst snd].
  2:{ intros H; inversion H; subst. eexists. split; [reflexivity |].
      split; [right; left; reflexivity |].
      right; left. exists layers. repeat split. }
  destruct (targets_of self) as [targets | e3]; cbn [fst snd].
  2:{ intros H; inversion H; subst. eexists. split; [reflexivity |].
      split; [right; right; reflexivity |].
      right; right. exists layers, conf_lines. repeat split. left; reflexivity. }
  destruct (deps_of self) as [deps | e4]; cbn [fst snd].
  2:{ intros H; inversion H; subst. eexists. split; [reflexivity |].
      split; [right; right; reflexivity |].
      right; right. exists layers, conf_lines. repeat split. right; left; reflexivity. }
  destruct (get_mandatory_str_value (conf self) "build_target") as [target | e5];
    cbn [fst snd]; [discriminate |].
  intros H; inversion H; subst. eexists. split; [reflexivity |].
  split; [right; right; reflexivity |].
  right; right. exists layers, conf_lines. repeat split. right; right; reflexivity.
Qed.

(** X7: when [build_target] is missing and everything before it is in
    order, [gen_build] raises the missing-field error that names
    [build_target] once the edges of the first three stages and the
    alias were written; the targets it computed are not returned. *)
Theorem gen_build_missing_build_target
  (self : YoctoBuilder) (w : Writer) (layers conf_lines : string)
  (targets deps : list string) :
  layers_of self = Ok layers ->
  conf_of getcwd py_str self = Ok conf_lines ->
  targets_of self = Ok targets ->
  deps_of self = Ok deps ->
  get_node (conf self) "build_target" = Ok None ->
  gen_build getcwd create_stamp_name py_str self w
  = (Raise (MissingFieldError "build_target" (start_mark (conf self))),
     (w ++ [env_edge self; layers_edge create_stamp_name self layers;
            conf_edge create_stamp_name self conf_lines; Newline;
            alias_edge self; Newline])%list).
Proof.
  intros Hl Hc Ht Hd Hmissing.
  rewrite gen_build_writes. unfold gen_build_trace.
  rewrite Hl, Hc, Ht, Hd.
  unfold get_mandatory_str_value. rewrite Hmissing. reflexivity.
Qed.

(** X8: a directive of [local_conf] whose key or value is not a string,
    as flattening makes of a group inside a group, makes [gen_build]
    raise AttributeError when only the edges of the first two stages are
    written. *)
Theorem gen_build_non_string_directive
  (self : YoctoBuilder) (w : Writer) (layers : string)
  (local_conf : list DirectivePair) :
  layers_of self = Ok layers ->
  local_conf_of getcwd py_str self = Ok local_conf ->
  forallb is_string_pair local_conf = false ->
  gen_build getcwd create_stamp_name py_str self w
  = (Raise AttributeError,
     (w ++ [env_edge self; layers_edge create_stamp_name self layers])%list).
Proof.
  intros Hl Hlc Hpairs.
  rewrite gen_build_writes. unfold gen_build_trace, conf_of.
  rewrite Hl, Hlc. cbn [bindR].
  destruct (comprehension conf_line local_conf) as [lines | e] eqn:Hlines.
  - rewrite (proj1 (conf_lines_string_pairs local_conf)) in Hpairs
      by (eexists; exact Hlines).
    discriminate.
  - rewrite (conf_lines_raise local_conf e Hlines). reflexivity.
Qed.

End Failures.

Lemma gen_build_raises_after_witness :
  gen_build "/home/user" example_stamp_name example_py_str scenario_D []
  = (Raise (MissingFieldError "target_images" m0), firstn 6 scenario_A_statements)
  /\ exists emitted,
       firstn 6 scenario_A_statements = emitted
       /\ (length (build_edges emitted) = 1
           \/ length (build_edges emitted) = 2
           \/ length (build_edges emitted) = 4).
Proof.
  split; [reflexivity |].
  destruct (gen_build_raises_after "/home/user" example_stamp_name example_py_str
              scenario_D [] (firstn 6 scenario_A_statements)
              (MissingFieldError "target_images" m0) eq_refl)
    as (emitted & Hw & Hcount & _).
  exists emitted. split; [exact Hw | exact Hcount].
Defined.

Lemma gen_build_missing_build_target_witness :
  get_node (conf scenario_no_target) "build_target" = Ok None
  /\ gen_build "/home/user" example_stamp_name example_py_str scenario_no_target []
     = (Raise (MissingFieldError "build_target" m0), firstn 6 scenario_A_statements).
Proof.
  split; [reflexivity |].
  exact (gen_build_missing_build_target "/home/user" example_stamp_name
           example_py_str scenario_no_target [] "" ""
           ["base/build/image.wic"] ["base/build/conf/moulin.conf"]
           eq_refl eq_refl eq_refl eq_refl eq_refl).
Defined.

Lemma gen_build_non_string_directive_witness :
  local_conf_of "/home/user" example_py_str scenario_nested
  = Ok [(PyNodes [scalar "A"; scalar "1"], PyNodes [scalar "B"; scalar "2"])]
  /\ gen_build "/home/user" example_stamp_name example_py_str scenario_nested []
     = (Raise AttributeError, firstn 2 scenario_A_statements).
Proof.
  split; [reflexivity |].
  exact (gen_build_non_string_directive "/home/user" example_stamp_name
           example_py_str scenario_nested [] ""
           [(PyNodes [scalar "A"; scalar "1"], PyNodes [scalar "B"; scalar "2"])]
           eq_refl eq_refl eq_refl).
Defined.

(** ** What [_get_external_src] accepts *)

Lemma comprehension_as_str_raises (values : list PyValue) (e : Exception) :
  comprehension as_str values = Raise e -> e = TypeError.
Proof.
  induction values as [| v values IH]; cbn; [discriminate |].
  destruct v as [s | l | l]; cbn; try (intros H; inversion H; reflexivity).
  destruct (comprehension as_str values) as [strs | e']; cbn; [discriminate |].
  intros H; inversion H; subst. apply IH. reflexivity.
Qed.

Section ExternalSrcErrors.

Variable getcwd : string.
Variable py_str : PyValue -> string.

Lemma external_src_entry_raises (item : Node * Node) (e : Exception) :
  external_src_entry getcwd py_str item = Raise e -> e = TypeError.
Proof.
  destruct item as [key_node val_node]. unfold external_src_entry.
  destruct val_node as [s mk | segments mk | pairs mk]; cbn; try discriminate.
  - unfold os_path_join_values.
    destruct (comprehension as_str (map node_value segments)) as [strs | e'] eqn:Hc;
      cbn.
    + destruct strs; cbn; [| discriminate]. intros H; inversion H; reflexivity.
    + intros H; inversion H; subst. apply (comprehension_as_str_raises _ _ Hc).
  - intros H; inversion H; reflexivity.
Qed.

Lemma external_src_entry_ok (item : Node * Node) (entry : DirectivePair) :
  external_src_entry getcwd py_str item = Ok entry ->
  has_path item = true /\ is_string_pair entry = true.
Proof.
  unfold has_path.
  destruct (external_src_path (snd item)) as [path |] eqn:Hpath.
  - rewrite (external_src_entry_path getcwd py_str item path Hpath).
    intros H; inversion H; split; reflexivity.
  - destruct item as [key_node val_node]. cbn [snd] in Hpath.
    unfold external_src_entry.
    destruct val_node as [s mk | segments mk | pairs mk]; cbn in Hpath |- *;
      try discriminate.
    unfold os_path_join_values. rewrite comprehension_map.
    destruct (comprehension (fun x => as_str (node_value x)) segments)
      as [strs | e] eqn:Hc; cbn; [| discriminate].
    apply (comprehension_all_defined _ scalar_string as_str_scalar_string) in Hc.
    rewrite Hc in Hpath. destruct strs; [discriminate | discriminate].
Qed.

Lemma external_src_loop_ok (items : list (Node * Node)) :
  forall ret overrides,
    external_src_loop getcwd py_str items ret = Ok overrides ->
    forallb has_path items = true
    /\ (forallb is_string_pair ret = true -> forallb is_string_pair overrides = true).
Proof.
  induction items as [| item items IH]; intros ret overrides;
    cbn [external_src_loop forallb].
  - intros H; inversion H; subst. split; [reflexivity | exact (fun H => H)].
  - destruct (external_src_entry getcwd py_str item) as [entry | e] eqn:He;
      cbn [bindR]; [| discriminate].
    intros H. destruct (external_src_entry_ok item entry He) as [Hitem Hentry].
    destruct (IH _ _ H) as [Hitems Hpairs].
    rewrite Hitem, Hitems. split; [reflexivity |].
    intros Hret. apply Hpairs. rewrite forallb_app, Hret. cbn. now rewrite Hentry.
Qed.

Lemma external_src_loop_raises (items : list (Node * Node)) :
  forall ret e,
    external_src_loop getcwd py_str items ret = Raise e -> e = TypeError.
Proof.
  induction items as [| item items IH]; intros ret e;
    cbn [external_src_loop]; [discriminate |].
  destruct (external_src_entry getcwd py_str item) as [entry | e'] eqn:He;
    cbn [bindR].
  - apply IH.
  - intros H; inversion H; subst. apply (external_src_entry_raises item e He).
Qed.

(** X9: with an [external_src] mapping, [_get_external_src] returns
    exactly when every value of the mapping is a scalar or a sequence of
    at least one scalar; it raises TypeError and nothing else when one is
    not; and what it returns is pairs of strings, which the making of the
    conf lines accepts. *)
Theorem get_external_src_accepts
  (self : YoctoBuilder) (items : list (Node * Node)) (m : Mark) :
  get_mapping_node (conf self) "external_src" = Ok (Some (MappingNode items m)) ->
  ((exists overrides, _get_external_src getcwd py_str self = Ok overrides)
   <-> forallb has_path items = true)
  /\ (forall e, _get_external_src getcwd py_str self = Raise e -> e = TypeError)
  /\ (forall overrides,
         _get_external_src getcwd py_str self = Ok overrides ->
         exists lines, comprehension conf_line overrides = Ok lines).
Proof.
  intros Hnode. unfold _get_external_src. rewrite Hnode. cbn [bindR mapping_value].
  split; [split |]; [| | split].
  - intros [overrides H]. apply (external_src_loop_ok items [] overrides H).
  - intros H.
    destruct (external_src_loop_overrides getcwd py_str items H [])
      as (overrides & Hloop & _).
    exists overrides. exact Hloop.
  - intros e. apply external_src_loop_raises.
  - intros overrides H. apply conf_lines_string_pairs.
    apply (proj2 (external_src_loop_ok items [] overrides H)). reflexivity.
Qed.

End ExternalSrcErrors.

Lemma get_external_src_accepts_witness :
  get_mapping_node (conf scenario_C) "external_src"
  = Ok (Some (MappingNode scenario_C_items m0))
  /\ exists overrides,
       _get_external_src "/home/user" example_py_str scenario_C = Ok overrides.
Proof.
  split; [reflexivity |].
  exact (proj2 (proj1 (get_external_src_accepts "/home/user" example_py_str
                         scenario_C scenario_C_items m0 eq_refl))
           eq_refl).
Defined.

(** ** The paths of the edges *)

Lemma join_step_absolute (path b : string) :
  startswith sep b = true -> join_step path b = b.
Proof.
  intros H. unfold join_step. rewrite H. reflexivity.
Qed.

Lemma join_step_relative (path b : string) :
  startswith sep b = false -> join_step path b = join_prefix path ++ b.
Proof.
  intros H. unfold join_step, join_prefix. rewrite H.
  destruct ((path =? "") || endswith_char "/" path); [reflexivity |].
  now rewrite string_app_assoc.
Qed.

(** X10: each target that [gen_build] returns comes from one entry of
    [target_images], in order.  A relative image path is put under the
    work directory joined to the directory of the build; an absolute one
    is returned as it is, outside of them. *)
Theorem targets_under_work_dir (self : YoctoBuilder) (targets : list string) :
  targets_of self = Ok targets ->
  exists images,
    get_mandatory_sequence (conf self) "target_images" = Ok images
    /\ Forall2
         (fun image target =>
            exists t,
              node_value image = PyStr t
              /\ target
                 = if startswith sep t then t
                   else join_prefix (os_path_join (yocto_dir self) [work_dir self]) ++ t)
         images targets.
Proof.
  intros H. destruct (targets_of_joined self targets H) as (images & Himages & Hall).
  exists images. split; [exact Himages |]. clear H Himages.
  induction Hall as [| image target images targets (t & Hvalue & Htarget) _ IH].
  - constructor.
  - constructor; [| exact IH].
    exists t. split; [exact Hvalue |]. rewrite Htarget.
    unfold os_path_join. cbn [fold_left].
    destruct (startswith sep t) eqn:Habs.
    + apply join_step_absolute, Habs.
    + apply join_step_relative, Habs.
Qed.

Lemma targets_under_work_dir_witness :
  targets_of scenario_conf = Ok ["base/build/image.wic"; "/abs/image.wic"]
  /\ exists images,
       get_mandatory_sequence (conf scenario_conf) "target_images" = Ok images
       /\ length images = 2.
Proof.
  split; [reflexivity |].
  destruct (targets_under_work_dir scenario_conf
              ["base/build/image.wic"; "/abs/image.wic"] eq_refl)
    as (images & Himages & Hall).
  exists images. split; [exact Himages |].
  apply (Forall2_length Hall).
Defined.

Lemma string_eqb_app (s a b : string) : (s ++ a =? s ++ b) = (a =? b).
Proof.
  induction s as [| c s IH]; cbn; [reflexivity |].
  now rewrite Ascii.eqb_refl.
Qed.

(** X11: for every builder, the output of the first stage and the
    output of the third stage are different paths. *)
Theorem env_and_conf_targets_differ (self : YoctoBuilder) :
  (env_target self =? local_conf_target self) = false.
Proof.
  unfold env_target, local_conf_target, os_path_join. cbn [fold_left].
  rewrite (join_step_relative _ "local.conf") by reflexivity.
  rewrite (join_step_relative _ "moulin.conf") by reflexivity.
  rewrite string_eqb_app. reflexivity.
Qed.

(** ** The conf variable read back *)

Lemma string_app_nil_r (s : string) : s ++ "" = s.
Proof.
  induction s as [| c s IH]; cbn; [reflexivity | now rewrite IH].
Qed.

Lemma push_string_words (s word : string) (others : list string) :
  push_string s (Some (word :: others)) = Some ((s ++ word) :: others).
Proof.
  induction s as [| c s IH]; cbn; [reflexivity | now rewrite IH].
Qed.

(** The line of a directive whose key and value are strings. *)
Lemma conf_line_single_quoted (k v : string) :
  conf_line (PyStr k, PyStr v)
  = Ok (single_quoted (replace "$" "$$" (assignment k v))).
Proof.
  cbn. rewrite shlex_quote_assignment, assignment_escaped. reflexivity.
Qed.

Lemma conf_lines_single_quoted (pairs : list (string * string)) :
  comprehension conf_line (map string_pair pairs)
  = Ok (map (fun kv => single_quoted (replace "$" "$$" (assignment (fst kv) (snd kv))))
          pairs).
Proof.
  induction pairs as [| [k v] pairs IH]; [reflexivity |].
  cbn [map comprehension]. unfold string_pair at 1. cbn [fst snd].
  rewrite conf_line_single_quoted, IH. reflexivity.
Qed.

Lemma ninja_expand_single_quoted (s tail tail' : string) :
  ninja_expand tail = Some tail' ->
  ninja_expand (single_quoted (replace "$" "$$" s) ++ tail)
  = Some (single_quoted s ++ tail').
Proof.
  intros Htail. unfold single_quoted.
  change ("'" ++ ?x) with (String "'" x).
  cbn [append ninja_expand Ascii.eqb Bool.eqb].
  rewrite !string_app_assoc.
  rewrite (ninja_expand_quoted s ("'" ++ tail) ("'" ++ tail')).
  - reflexivity.
  - cbn. rewrite Htail. reflexivity.
Qed.

Lemma str_join_cons (sep x y : string) (l : list string) :
  str_join sep (x :: y :: l) = x ++ sep ++ str_join sep (y :: l).
Proof.
  reflexivity.
Qed.

Lemma ninja_expand_joined (assignments : list string) :
  ninja_expand
    (str_join " " (map (fun a => single_quoted (replace "$" "$$" a)) assignments))
  = Some (str_join " " (map single_quoted assignments)).
Proof.
  induction assignments as [| a assignments IH]; [reflexivity |].
  destruct assignments as [| b assignments].
  - cbn [map str_join String.concat].
    rewrite <- (string_app_nil_r (single_quoted (replace "$" "$$" a))).
    rewrite (ninja_expand_single_quoted a "" "" eq_refl).
    now rewrite string_app_nil_r.
  - cbn [map] in IH |- *. rewrite !str_join_cons.
    apply ninja_expand_single_quoted.
    cbn [append ninja_expand Ascii.eqb Bool.eqb]. rewrite IH. reflexivity.
Qed.

Lemma shell_words_single (s tail : string) :
  shell_words_from InSingle true (replace "'" quoted_squote s ++ String "'" tail)
  = push_string s (shell_words_from Unquoted true tail).
Proof.
  induction s as [| c s IH]; cbn; [reflexivity |].
  destruct (Ascii.eqb c "'") eqn:Hquote.
  - apply Ascii.eqb_eq in Hquote; subst c. cbn. rewrite IH. reflexivity.
  - cbn. rewrite Hquote, IH. reflexivity.
Qed.

Lemma shell_words_single_quoted (s tail : string) (in_word : bool) :
  shell_words_from Unquoted in_word (single_quoted s ++ tail)
  = push_string s (shell_words_from Unquoted true tail).
Proof.
  unfold single_quoted. change ("'" ++ ?x) with (String "'" x).
  cbn [append shell_words_from Ascii.eqb Bool.eqb].
  rewrite string_app_assoc. apply shell_words_single.
Qed.

Lemma shell_words_joined_cons (assignments : list string) :
  forall a in_word,
    shell_words_from Unquoted in_word
      (str_join " " (map single_quoted (a :: assignments)))
    = Some (a :: assignments).
Proof.
  induction assignments as [| b assignments IH]; intros a in_word.
  - cbn [map str_join String.concat].
    rewrite <- (string_app_nil_r (single_quoted a)).
    rewrite shell_words_single_quoted. cbn [shell_words_from].
    rewrite push_string_words, string_app_nil_r. reflexivity.
  - cbn [map] in IH |- *. rewrite str_join_cons.
    rewrite shell_words_single_quoted.
    cbn [append shell_words_from Ascii.eqb Bool.eqb].
    rewrite IH. cbn [option_map].
    rewrite push_string_words, string_app_nil_r. reflexivity.
Qed.

Lemma shell_words_joined (assignments : list string) :
  shell_words (str_join " " (map single_quoted assignments)) = Some assignments.
Proof.
  destruct assignments as [| a assignments]; [reflexivity |].
  apply shell_words_joined_cons.
Qed.

Section ConfVariable.

Variable getcwd : string.
Variable py_str : PyValue -> string.

(** X12: when the keys and the values of [local_conf] are strings, the
    variable [conf] of the third edge holds the directives so that
    expanding its dollar signs and splitting the result into words as the
    shell does gives, for each directive and in the order of
    [local_conf], one word: the key, a blank, the equals sign, a blank and
    the value between two double quotes (the character of code 34),
    whatever blanks, quotes and dollar signs the key and the value
    hold. *)
Theorem conf_variable_round_trip
  (self : YoctoBuilder) (pairs : list (string * string)) :
  local_conf_of getcwd py_str self = Ok (map string_pair pairs) ->
  exists conf_lines expanded,
    conf_of getcwd py_str self = Ok conf_lines
    /\ ninja_expand conf_lines = Some expanded
    /\ shell_words expanded
       = Some (map (fun kv =>
                      fst kv ++ " = "
                      ++ String "034" (snd kv ++ String "034" EmptyString))
                 pairs).
Proof.
  intros Hlc. unfold conf_of. rewrite Hlc. cbn [bindR].
  rewrite conf_lines_single_quoted. cbn [bindR].
  change (map (fun kv => fst kv ++ " = "
                         ++ String "034" (snd kv ++ String "034" EmptyString)) pairs)
    with (map (fun kv => assignment (fst kv) (snd kv)) pairs).
  eexists. eexists. split; [reflexivity |].
  rewrite <- (map_map (fun kv => assignment (fst kv) (snd kv))
                (fun a => single_quoted (replace "$" "$$" a))).
  split; [apply ninja_expand_joined | apply shell_words_joined].
Qed.

End ConfVariable.

Lemma conf_variable_round_trip_witness :
  local_conf_of "/home/user" example_py_str scenario_conf
  = Ok (map string_pair [("FOO", "a b"); ("BAR", "$x's"); ("BAZ", "3")])
  /\ conf_of "/home/user" example_py_str scenario_conf
     = Ok ("'FOO = " ++ String "034" ("a b" ++ String "034" "' ")
           ++ "'BAR = " ++ String "034" ("$$x'" ++ String "034" ("'" ++ String "034" "'s"
                                          ++ String "034" "' "))
           ++ "'BAZ = " ++ String "034" ("3" ++ String "034" "'"))
  /\ exists conf_lines expanded,
       conf_of "/home/user" example_py_str scenario_conf = Ok conf_lines
       /\ ninja_expand conf_lines = Some expanded
       /\ shell_words expanded
          = Some ["FOO = " ++ String "034" ("a b" ++ String "034" EmptyString);
                  "BAR = " ++ String "034" ("$x's" ++ String "034" EmptyString);
                  "BAZ = " ++ String "034" ("3" ++ String "034" EmptyString)].
Proof.
  split; [reflexivity |]. split; [reflexivity |].
  exact (conf_variable_round_trip "/home/user" example_py_str scenario_conf
           [("FOO", "a b"); ("BAR", "$x's"); ("BAZ", "3")] eq_refl).
Defined.

(** ** Configurations that are accepted *)

Lemma scalar_pair_member (x : Node) :
  scalar_pair x = true ->
  exists p, member_pair x = Ok p /\ is_string_pair p = true.
Proof.
  destruct x as [s mk | [| [k mk1 | l mk1 | l mk1] [| [v mk2 | l' mk2 | l' mk2] rest]] mk
                 | l mk];
    cbn; try discriminate.
  intros _. eexists. split; reflexivity.
Qed.

Lemma scalar_pairs_members (members : list Node) :
  forallb scalar_pair members = true ->
  exists pairs,
    comprehension member_pair members = Ok pairs
    /\ forallb is_string_pair pairs = true.
Proof.
  induction members as [| x members IH]; cbn; intros H.
  - exists []. split; reflexivity.
  - apply andb_prop in H. destruct H as [Hx Hrest].
    destruct (scalar_pair_member x Hx) as (p & Hp & Hstr).
    destruct (IH Hrest) as (pairs & Hpairs & Hstrs).
    exists (p :: pairs). rewrite Hp, Hpairs. cbn. rewrite Hstr, Hstrs.
    split; reflexivity.
Qed.

Lemma scalar_entry_flattens (entry : Node) :
  scalar_entry entry = true ->
  exists pairs,
    flatten_entry entry = Ok pairs /\ forallb is_string_pair pairs = true.
Proof.
  unfold scalar_entry. intros H. apply orb_prop in H. destruct H as [H | H].
  - destruct entry
      as [s mk | [| [k mk1 | l mk1 | l mk1] [| [v mk2 | l' mk2 | l' mk2] rest]] mk
          | l mk];
      cbn in H; try discriminate.
    cbn. eexists. split; reflexivity.
  - destruct entry as [s mk | [| first rest] mk | l mk]; try discriminate.
    apply andb_prop in H. destruct H as [Hseq Hpairs].
    cbn [flatten_entry index nth_error bindR]. rewrite Hseq.
    apply (scalar_pairs_members (first :: rest) Hpairs).
Qed.

(** X14: when every entry of the conf node is a pair of scalars or a
    group of pairs of scalars, flattening returns, and every pair it
    returns is a pair of strings: making the conf lines of them does not
    raise. *)
Theorem flatten_of_scalar_entries (entries : list Node) (m : Mark) :
  forallb scalar_entry entries = true ->
  exists pairs,
    _flatten_yocto_conf (SequenceNode entries m) = Ok pairs
    /\ forallb is_string_pair pairs = true
    /\ exists lines, comprehension conf_line pairs = Ok lines.
Proof.
  intros H.
  assert (Hloop : forall result,
             forallb is_string_pair result = true ->
             exists pairs,
               flatten_loop entries result = Ok pairs
               /\ forallb is_string_pair pairs = true).
  { induction entries as [| entry entries IH]; cbn; intros result Hresult.
    - exists result. split; [reflexivity | exact Hresult].
    - cbn in H. apply andb_prop in H. destruct H as [Hentry Hrest].
      destruct (scalar_entry_flattens entry Hentry) as (r & Hr & Hstr).
      rewrite Hr. cbn. apply (IH Hrest).
      rewrite forallb_app, Hresult, Hstr. reflexivity. }
  destruct (Hloop [] eq_refl) as (pairs & Hpairs & Hstr).
  exists pairs. split; [exact Hpairs |]. split; [exact Hstr |].
  apply conf_lines_string_pairs, Hstr.
Qed.

Lemma flatten_of_scalar_entries_witness :
  forallb scalar_entry (sequence_value scenario_B_conf) = true
  /\ exists pairs,
       _flatten_yocto_conf scenario_B_conf = Ok pairs
       /\ forallb is_string_pair pairs = true
       /\ exists lines, comprehension conf_line pairs = Ok lines.
Proof.
  split; [reflexivity |].
  exact (flatten_of_scalar_entries (sequence_value scenario_B_conf) m0 eq_refl).
Defined.

Lemma targets_of_scalars (dir work : string) (images : list string) :
  comprehension
    (fun t => v <- as_str (node_value t) ;; Ok (os_path_join dir [work; v]))
    (map scalar images)
  = Ok (map (fun image => os_path_join dir [work; image]) images).
Proof.
  induction images as [| image images IH]; [reflexivity |].
  cbn [map comprehension]. rewrite IH. reflexivity.
Qed.

Section Accepted.

Variable getcwd : string.
Variable create_stamp_name : list string -> string.
Variable py_str : PyValue -> string.

(** X13: the two mandatory keys are enough.  For a configuration that
    holds [target_images], a sequence of at least one scalar, and
    [build_target], a scalar, and no other key, [gen_build] returns the
    image paths joined to the directories and writes the five build
    edges, with an empty [layers], an empty [conf] and the third output
    as the only dependency of the fourth edge. *)
Theorem gen_build_accepts_minimal_conf
  (name dir work target image : string) (images stamps : list string)
  (w : Writer) :
  let self :=
    mkYoctoBuilder (minimal_conf (image :: images) target) name stamps dir work in
  let targets :=
    map (fun i => os_path_join dir [work; i]) (image :: images) in
  gen_build getcwd create_stamp_name py_str self w
  = (Ok targets,
     (w ++ [Build [env_target self] "yocto_init_env" stamps
              [("yocto_dir", dir); ("work_dir", work)];
            Build [layers_stamp create_stamp_name self] "yocto_add_layers"
              [env_target self]
              [("yocto_dir", dir); ("work_dir", work); ("layers", "")];
            Build [local_conf_target self] "yocto_update_conf"
              [layers_stamp create_stamp_name self]
              [("yocto_dir", dir); ("work_dir", work); ("conf", "")];
            Newline;
            Build [("conf-" ++ name)%string] "phony" [local_conf_target self] [];
            Newline;
            Build targets "yocto_build" [local_conf_target self]
              [("yocto_dir", dir); ("work_dir", work); ("target", target);
               ("name", name)]])%list).
Proof.
  intros self targets. rewrite gen_build_writes. unfold gen_build_trace.
  assert (Hl : layers_of self = Ok "") by reflexivity.
  assert (Hc : conf_of getcwd py_str self = Ok "") by reflexivity.
  assert (Hd : deps_of self = Ok [local_conf_target self]) by reflexivity.
  assert (Hb : get_mandatory_str_value (conf self) "build_target" = Ok (target, m0))
    by reflexivity.
  assert (Ht : targets_of self = Ok targets).
  { unfold targets_of.
    change (get_mandatory_sequence (conf self) "target_images")
      with (Ok (map scalar (image :: images))).
    cbn [bindR]. apply targets_of_scalars. }
  rewrite Hl, Hc, Ht, Hd, Hb. reflexivity.
Qed.

End Accepted.

(** ** The builder of a configuration *)

Section Constructor.

Variable getcwd : string.
Variable create_stamp_name : list string -> string.
Variable py_str : PyValue -> string.

(** X15: [get_builder] keeps the configuration, the name, the source
    stamps and the directory it is given, and takes build for the work
    directory when the configuration has no [work_dir]: whatever else the
    configuration holds, the first edge the builder writes is the one of
    local.conf under build in the conf directory, depending on the source
    stamps. *)
Theorem get_builder_default_work_dir
  (conf : Node) (name build_dir : string) (stamps : list string) (w : Writer) :
  get_node conf "work_dir" = Ok None ->
  exists self,
    get_builder conf name build_dir stamps = Ok self
    /\ self = mkYoctoBuilder conf name stamps build_dir "build"
    /\ exists rest,
         snd (gen_build getcwd create_stamp_name py_str self w)
         = (w ++ Build [os_path_join build_dir ["build"; "conf"; "local.conf"]]
                   "yocto_init_env" stamps
                   [("yocto_dir", build_dir); ("work_dir", "build")]
              :: rest)%list.
Proof.
  intros Hnone.
  exists (mkYoctoBuilder conf name stamps build_dir "build").
  split; [| split; [reflexivity |]].
  - unfold get_builder, YoctoBuilder_init, get_str_value. rewrite Hnone. reflexivity.
  - rewrite gen_build_writes. cbn [snd].
    destruct (gen_build_trace_starts getcwd create_stamp_name py_str
                (mkYoctoBuilder conf name stamps build_dir "build"))
      as [rest Hrest].
    exists rest. rewrite Hrest. reflexivity.
Qed.

End Constructor.

Lemma get_builder_default_work_dir_witness :
  get_node scenario_A_conf "work_dir" = Ok None
  /\ get_builder scenario_A_conf "a" "base" ["src.stamp"] = Ok scenario_A.
Proof.
  split; [reflexivity |].
  destruct (get_builder_default_work_dir "/home/user" example_stamp_name
              example_py_str scenario_A_conf "a" "base" ["src.stamp"] [] eq_refl)
    as (self & Hself & -> & _).
  exact Hself.
Defined.
